(** * dput.uploader: the upload driver and its lifecycle manager

    A shallow embedding of [src/dput/uploader.py].  The module drives one
    upload: it loads the destination profile, computes the [.upload] log
    ("marker") file name, runs the configured checkers, opens the log file,
    enters the [uploader] context manager and sends every file.

    Effects are explicit: a computation takes the file system and returns
    either the exception it raised or its value, the new file system and
    the list of observable events it produced, in program order. *)

From Stdlib Require Import ZArith Ascii String List Bool Lia.
From stdpp Require Import base option list gmap strings pretty.
Import ListNotations.
Local Open Scope string_scope.
Local Open Scope list_scope.

(** ** Python strings *)

Module Py.

(** The line feed written as ["\n"] in the source. *)
Definition nl : string := String (ascii_of_nat 10) EmptyString.

(** [s.endswith(x)] *)
Definition endswith (s x : string) : bool :=
  (String.length x <=? String.length s)%nat
  && String.eqb (substring (String.length s - String.length x)
                           (String.length x) s) x.

(** [s[:-n]] for a positive [n]: all but the last [n] characters. *)
Definition drop_last (n : nat) (s : string) : string :=
  substring 0 (String.length s - n) s.

(** [posixpath.basename(p)]: [i = p.rfind('/') + 1; return p[i:]].
    [acc] holds the characters seen since the last slash. *)
Fixpoint basename_from (acc p : string) : string :=
  match p with
  | EmptyString => acc
  | String c rest =>
      if Ascii.eqb c "/"%char then basename_from EmptyString rest
      else basename_from (acc +:+ String c EmptyString) rest
  end.

Definition basename (p : string) : string := basename_from EmptyString p.

(** Truth value of a string: only the empty string is false. *)
Definition truthy (s : string) : bool := negb (String.eqb s "").

(** ["%d" % z] *)
Definition fmt_d (z : Z) : string := pretty z.

End Py.

(** ** Exceptions *)

Inductive Exc : Type :=
| DputConfigurationError (msg : string)
| DputError (msg : string)
| UploadException (msg : string)
| KeyError (key : string)
| IOError (path : string)
| OtherError (msg : string).

(** ** Events

    What an observer of one run sees: calls on the file system, on the
    checkers, on the uploader object (the backend), and the commands of
    the hooks.  Logger output is not an event; where a logger call formats
    a value whose evaluation can raise, the evaluation is kept. *)

Inductive Event : Type :=
| EAccess (path : string)                 (* os.access(path, os.R_OK) *)
| EOpen (path : string)                   (* open(path, 'w') returned *)
| EWrite (path : string) (data : string)  (* log.write(data) *)
| EClose (path : string)                  (* leaving the with block of open *)
| EChecker (name : string)                (* run_checker(name, ...) *)
| EConstruct (method : string)            (* klass(profile) *)
| EInitialize                             (* obj.initialize() *)
| EPreHook                                (* obj._pre_hook() *)
| ERunCommand (cmd : string)              (* run_command(cmd) *)
| EStdout (data : string)                 (* sys.stdout.write(data) *)
| EUploadFile (path : string)             (* obj.upload_file(path) *)
| EPostHook                               (* obj._post_hook() *)
| EShutdown.                              (* obj.shutdown() *)

(** ** The monad of the embedding *)

(** The file system: the content of every file that exists.  Who may read
    or write a path is decided by the operating system, which is part of
    the environment of a run (see [may_read] and [may_write]). *)
Abbreviation FS := (gmap string string).

Definition M (A : Type) : Type := FS -> (Exc + A) * FS * list Event.

Definition ret {A} (a : A) : M A := fun fs => (inr a, fs, []).

Definition raise {A} (e : Exc) : M A := fun fs => (inl e, fs, []).

Definition emit (ev : Event) : M unit := fun fs => (inr tt, fs, [ev]).

Definition bind {A B} (f : A -> M B) (m : M A) : M B :=
  fun fs =>
    match m fs with
    | (inl e, fs1, t1) => (inl e, fs1, t1)
    | (inr a, fs1, t1) =>
        match f a fs1 with
        | (r, fs2, t2) => (r, fs2, t1 ++ t2)
        end
    end.

#[global] Instance M_ret : MRet M := @ret.
#[global] Instance M_bind : MBind M := @bind.

(** [try: body finally: fin].  The finaliser runs however the body ends;
    an exception of the finaliser replaces the outcome of the body,
    otherwise the outcome of the body, value or exception, stands. *)
Definition try_finally {A} (body : M A) (fin : M unit) : M A :=
  fun fs =>
    match body fs with
    | (r, fs1, t1) =>
        match fin fs1 with
        | (inl e, fs2, t2) => (inl e, fs2, t1 ++ t2)
        | (inr _, fs2, t2) => (r, fs2, t1 ++ t2)
        end
    end.

(** An external call that returns nothing: [None] when it returns,
    [Some e] when it raises [e]. *)
Definition call (ev : Event) (outcome : option Exc) : M unit :=
  emit ev;;
  match outcome with
  | None => ret tt
  | Some e => raise e
  end.

(** [d[k]] on a dict with string values. *)
Definition getitem (d : gmap string string) (k : string) : M string :=
  match d !! k with
  | Some v => ret v
  | None => raise (KeyError k)
  end.

(** ** Access to the outcome of a run *)

Definition outcome {A} (r : (Exc + A) * FS * list Event) : Exc + A := r.1.1.
Definition final_fs {A} (r : (Exc + A) * FS * list Event) : FS := r.1.2.
Definition events {A} (r : (Exc + A) * FS * list Event) : list Event := r.2.

(** ** Data *)

(** A destination profile: the dict that [dput.profile.load_profile]
    returns.  Its scalar entries ([method], [name], [fqdn], [incoming],
    [interface], [pre_upload_command], [post_upload_command], ...) are
    strings, looked up by key; the entry [checkers], when present, is a
    list of checker names. *)
Record Profile : Type := mkProfile {
  settings : gmap string string;
  checkers : option (list string)
}.

(** The [changes] object, read through its four getters. *)
Record Changes : Type := mkChanges {
  get_changes_file : string;
  get_filename : string;
  get_package_name : string;
  get_files : list string
}.

(** The parsed command line. [delayed] is a number of days or [None]. *)
Record Args : Type := mkArgs {
  host : string;
  force : bool;
  simulate : bool;
  delayed : option Z;
  passive : bool
}.

(** A concrete uploader class: what its three abstract methods do.
    [None] is a normal return, [Some e] raises [e]. *)
Record UploaderClass : Type := mkUploaderClass {
  on_initialize : option Exc;
  on_upload_file : string -> option Exc;
  on_shutdown : option Exc
}.

(** The collaborators that live outside [dput/uploader.py]. *)
Record Env : Type := mkEnv {
  (* dput.profile.load_profile(host) *)
  load_profile : string -> Exc + Profile;
  (* dput.overrides.make_delayed_upload(profile, days): the profile it
     leaves behind, or the exception it raises *)
  make_delayed_upload : Profile -> Z -> Exc + Profile;
  (* dput.overrides.force_passive_ftp_upload(profile) *)
  force_passive_ftp_upload : Profile -> Exc + Profile;
  (* dput.checker.run_checker(checker, changes, profile) *)
  run_checker : string -> Changes -> Profile -> option Exc;
  (* dput.util.run_command(cmd): (output, stderr, ret) *)
  run_command : string -> string * string * Z;
  (* dput.util.get_obj('uploaders', name) *)
  get_uploader : string -> option UploaderClass;
  (* whether dput.util.get_obj('interfaces', name) is not None *)
  has_interface : string -> bool;
  (* the operating system: whether the real uid may read the file at the
     path, should it exist *)
  may_read : string -> bool;
  (* the operating system: whether open(path, 'w') succeeds (the directory
     is there and the file can be created or written) *)
  may_write : string -> bool
}.

(** An instance of [AbstractUploader]. *)
Record Uploader : Type := mkUploader {
  _config : Profile;
  klass : UploaderClass
}.

(** ** File system operations *)

(** What [os.access(path, os.R_OK)] answers: the file exists and the real
    uid may read it. *)
Definition readable (env : Env) (fs : FS) (path : string) : bool :=
  bool_decide (is_Some (fs !! path)) && may_read env path.

Definition os_access (env : Env) (path : string) : M bool :=
  fun fs => (inr (readable env fs path), fs, [EAccess path]).

(** [open(path, 'w')]: creates or truncates the file, or raises [IOError]
    and leaves the file system as it was. *)
Definition open_w (env : Env) (path : string) : M unit :=
  fun fs =>
    if may_write env path
    then (inr tt, <[path := ""]> fs, [EOpen path])
    else (inl (IOError path), fs, []).

Definition write (path data : string) : M unit :=
  fun fs => (inr tt, <[path := default "" (fs !! path) +:+ data]> fs,
             [EWrite path data]).

Definition close (path : string) : M unit := emit (EClose path).

(** [with open(path, 'w') as log: body] *)
Definition with_open {A} (env : Env) (path : string) (body : M A) : M A :=
  open_w env path;; try_finally body (close path).

(** ** AbstractUploader *)

Section WithEnv.

Variable env : Env.

(** [AbstractUploader.__init__] *)
Definition AbstractUploader_init (k : UploaderClass) (profile : Profile)
  : M Uploader :=
  let interface :=
    match settings profile !! "interface" with
    | Some i => i
    | None => "cli"
    end in
  if has_interface env interface
  then mret {| _config := profile; klass := k |}
  else raise (DputConfigurationError
                ("No such interface: `" +:+ interface +:+ "'")).

Definition _run_hook (self : Uploader) (hook : string) : M unit :=
  match settings (_config self) !! hook with
  | Some cmd =>
      if Py.truthy cmd then
        let '(output, stderr, rc) := run_command env cmd in
        emit (ERunCommand cmd);;
        emit (EStdout output);;
        if decide (rc = 0%Z) then mret tt
        else raise (DputError
                      ("Command `" +:+ cmd +:+ "' returned an error: "
                       +:+ stderr +:+ " [err=" +:+ Py.fmt_d rc +:+ "]"))
      else mret tt
  | None => mret tt
  end.

Definition _pre_hook (self : Uploader) : M unit :=
  emit EPreHook;; _run_hook self "pre_upload_command".

Definition _post_hook (self : Uploader) : M unit :=
  emit EPostHook;; _run_hook self "post_upload_command".

Definition initialize (self : Uploader) : M unit :=
  call EInitialize (on_initialize (klass self)).

Definition upload_file (self : Uploader) (filename : string) : M unit :=
  call (EUploadFile filename) (on_upload_file (klass self) filename).

Definition shutdown (self : Uploader) : M unit :=
  call EShutdown (on_shutdown (klass self)).

(** ** The [uploader] context manager *)

(** The generator up to its [yield]. *)
Definition uploader_enter (uploader_method : string) (profile : Profile)
  : M Uploader :=
  match get_uploader env uploader_method with
  | None =>
      raise (DputConfigurationError
               ("Failed to resolve method " +:+ uploader_method
                +:+ " to an uploader class"))
  | Some k =>
      emit (EConstruct uploader_method);;
      obj ← AbstractUploader_init k profile;
      initialize obj;;
      _pre_hook obj;;
      mret obj
  end.

(** The [finally] clause around the [yield]. *)
Definition uploader_exit (obj : Uploader) : M unit :=
  _post_hook obj;; shutdown obj.

(** [with uploader(uploader_method, profile) as obj: body obj] *)
Definition uploader {A} (uploader_method : string) (profile : Profile)
    (body : Uploader -> M A) : M A :=
  obj ← uploader_enter uploader_method profile;
  try_finally (body obj) (uploader_exit obj).

(** ** determine_logfile *)

Definition xtn : string := ".changes".

Definition determine_logfile (changes : Changes) (conf : Profile)
    (args : Args) : M string :=
  let logfile := get_changes_file changes in
  logfile ←
    (if Py.endswith logfile xtn then
       name ← getitem (settings conf) "name";
       mret (Py.drop_last (String.length xtn) logfile
             +:+ "." +:+ name +:+ ".upload")
     else
       raise (UploadException
                ("File " +:+ get_filename changes
                 +:+ " does not look like a .changes file")));
  can_read ← os_access env logfile;
  if can_read && negb (force args) then
    name ← getitem (settings conf) "name";
    raise (UploadException
             ("Package " +:+ get_package_name changes
              +:+ " was already uploaded to " +:+ name +:+ Py.nl
              +:+ "If you want to upload nonetheless, use --force or remove "
              +:+ logfile))
  else mret logfile.

(** ** invoke_dput *)

(** The body of [for checker in profile['checkers']]. *)
Fixpoint run_checkers (cs : list string) (changes : Changes)
    (profile : Profile) : M unit :=
  match cs with
  | [] => mret tt
  | checker :: rest =>
      call (EChecker checker) (run_checker env checker changes profile);;
      run_checkers rest changes profile
  end.

(** The line written to the log for one path.  The tuple is evaluated
    left to right: [profile['fqdn'] or profile['name']], then
    [profile['name']]. *)
Definition log_line (profile : Profile) (path : string) : M string :=
  fq ← getitem (settings profile) "fqdn";
  target ← (if Py.truthy fq then mret fq
            else getitem (settings profile) "name");
  name ← getitem (settings profile) "name";
  mret ("Successfully uploaded " +:+ Py.basename path +:+ " to " +:+ target
        +:+ " for " +:+ name +:+ "." +:+ Py.nl).

(** The [for path in ...] loop inside the two [with] blocks. *)
Fixpoint transfer_loop (args : Args) (profile : Profile) (logfile : string)
    (obj : Uploader) (paths : list string) : M unit :=
  match paths with
  | [] => mret tt
  | path :: rest =>
      (* logger.info("Uploading %s => %s" % (basename(path), profile['name'])) *)
      getitem (settings profile) "name";;
      (if simulate args then mret tt else upload_file obj path);;
      line ← log_line profile path;
      write logfile line;;
      transfer_loop args profile logfile obj rest
  end.

(** The two override calls, which change the profile in place. *)
Definition apply_overrides (args : Args) (profile : Profile)
  : Exc + Profile :=
  match (match delayed args with
         | Some d =>
             if decide (d = 0%Z) then inr profile
             else make_delayed_upload env profile d
         | None => inr profile
         end) with
  | inl e => inl e
  | inr profile =>
      if passive args then force_passive_ftp_upload env profile
      else inr profile
  end.

Definition lift {A} (r : Exc + A) : M A :=
  match r with
  | inl e => raise e
  | inr a => mret a
  end.

Definition upload_paths (changes : Changes) : list string :=
  get_files changes ++ [get_changes_file changes].

Definition invoke_dput (changes : Changes) (args : Args) : M unit :=
  profile ← lift (load_profile env (host args));
  let fqdn := settings profile !! "fqdn" in
  logfile ← determine_logfile changes profile args;
  profile ← lift (apply_overrides args profile);
  match checkers profile with
  | Some cs => run_checkers cs changes profile
  | None => mret tt
  end;;
  (* logger.info("Uploading %s to %s (%s)" % (..., fqdn or profile['name'],
                                               profile['incoming'])) *)
  match fqdn with
  | Some fq => if Py.truthy fq then mret fq
               else getitem (settings profile) "name"
  | None => getitem (settings profile) "name"
  end;;
  getitem (settings profile) "incoming";;
  with_open env logfile
    (method ← getitem (settings profile) "method";
     uploader method profile
       (fun obj =>
          transfer_loop args profile logfile obj (upload_paths changes))).

End WithEnv.

(** ** Observations on traces *)

#[global] Instance Exc_eq_dec : EqDecision Exc.
Proof. solve_decision. Defined.

#[global] Instance Event_eq_dec : EqDecision Event.
Proof. solve_decision. Defined.

(** The calls on the uploader object, as a recording stub sees them. *)
Definition backend_call (ev : Event) : option Event :=
  match ev with
  | EInitialize | EPreHook | EUploadFile _ | EPostHook | EShutdown => Some ev
  | _ => None
  end.

Definition backend_calls (t : list Event) : list Event := omap backend_call t.

(** The paths given to [upload_file]. *)
Definition uploads (t : list Event) : list string :=
  omap (fun ev => match ev with EUploadFile p => Some p | _ => None end) t.

(** The names given to [run_checker]. *)
Definition checkers_run (t : list Event) : list string :=
  omap (fun ev => match ev with EChecker c => Some c | _ => None end) t.

(** The command lines given to [run_command]. *)
Definition commands_run (t : list Event) : list string :=
  omap (fun ev => match ev with ERunCommand c => Some c | _ => None end) t.

(** The writes to files: path and data. *)
Definition writes (t : list Event) : list (string * string) :=
  omap (fun ev => match ev with EWrite p d => Some (p, d) | _ => None end) t.

(** The events that touch the file system. *)
Definition fs_events (t : list Event) : list Event :=
  omap (fun ev => match ev with
                  | EAccess _ | EOpen _ | EWrite _ _ | EClose _ => Some ev
                  | _ => None
                  end) t.

(** How often an event occurs in a trace. *)
Definition occurrences (ev : Event) (t : list Event) : nat :=
  length (filter (fun x => x = ev) t).

(** The method names for which an uploader class was instantiated. *)
Definition constructions (t : list Event) : list string :=
  omap (fun ev => match ev with EConstruct m => Some m | _ => None end) t.

(** The exception [determine_logfile] raises for an existing log file. *)
Definition already_uploaded (changes : Changes) (d logfile : string) : Exc :=
  UploadException
    ("Package " +:+ get_package_name changes
     +:+ " was already uploaded to " +:+ d +:+ Py.nl
     +:+ "If you want to upload nonetheless, use --force or remove "
     +:+ logfile).

(** The exception [determine_logfile] raises for a descriptor without the
    [.changes] suffix. *)
Definition not_a_changes_file (changes : Changes) : Exc :=
  UploadException
    ("File " +:+ get_filename changes
     +:+ " does not look like a .changes file").

(** ** Notions used in the statements *)

(** The command a hook runs: the configured string, unless it is missing
    or empty. *)
Definition hook_command (p : Profile) (hook : string) : option string :=
  match settings p !! hook with
  | Some cmd => if Py.truthy cmd then Some cmd else None
  | None => None
  end.

(** A hook fails when its command exits with a status other than 0. *)
Definition hook_fails (env : Env) (p : Profile) (hook : string) : bool :=
  match hook_command p hook with
  | Some cmd => negb ((run_command env cmd).2 =? 0)%Z
  | None => false
  end.

(** The events of one hook: the command and its output, if the hook has
    a command. *)
Definition hook_trace (env : Env) (p : Profile) (hook : string) : list Event :=
  match hook_command p hook with
  | Some cmd => [ERunCommand cmd; EStdout (run_command env cmd).1.1]
  | None => []
  end.

(** What [log.write] leaves in the file system. *)
Definition appended (logfile data : string) (fs : FS) : FS :=
  <[logfile := default "" (fs !! logfile) +:+ data]> fs.

(** The commands of the two hooks of a profile, in the order they run. *)
Definition hook_commands (p : Profile) : list string :=
  option_list (hook_command p "pre_upload_command")
  ++ option_list (hook_command p "post_upload_command").

(** The text of the marker line for one path: the file name, then the
    [fqdn] of the profile, or its [name] when the [fqdn] is empty, then the
    [name]. *)
Definition marker_line (p : Profile) (path : string) : string :=
  let name := default "" (settings p !! "name") in
  let fq := default "" (settings p !! "fqdn") in
  "Successfully uploaded " +:+ Py.basename path +:+ " to "
  +:+ (if Py.truthy fq then fq else name)
  +:+ " for " +:+ name +:+ "." +:+ Py.nl.

(** The content of a file made of the given pieces. *)
Definition joined (pieces : list string) : string :=
  foldr String.append "" pieces.

(** The events of a transfer loop that runs to its end: for each path the
    transfer, unless this is a dry run, and the line written to the log. *)
Definition transfer_trace (args : Args) (p : Profile) (logfile : string)
    (paths : list string) : list Event :=
  flat_map (fun path =>
              (if simulate args then [] else [EUploadFile path])
              ++ [EWrite logfile (marker_line p path)]) paths.

(** A computation that never calls [upload_file]. *)
Definition sends_nothing {A} (m : M A) : Prop :=
  forall fs, uploads (events (m fs)) = [].

(** ** Sample data

    One artifact set, a handful of profiles and a world with one uploader
    class per behaviour, for the examples below. *)

Module Sample.

Definition changes : Changes :=
  {| get_changes_file := "foo_1.0_amd64.changes";
     get_filename := "foo_1.0_amd64.changes";
     get_package_name := "foo";
     get_files := ["pool/foo_1.0.dsc"; "pool/foo_1.0.tar.gz"] |}.

(** A descriptor that is not a [.changes] file. *)
Definition tarball : Changes :=
  {| get_changes_file := "foo_1.0.tar.gz";
     get_filename := "foo_1.0.tar.gz";
     get_package_name := "foo";
     get_files := [] |}.

Definition marker : string := "foo_1.0_amd64.myhost.upload".

Definition profile (entries : list (string * string))
    (cs : option (list string)) : Profile :=
  {| settings := list_to_map entries; checkers := cs |}.

Definition base_entries : list (string * string) :=
  [("name", "myhost"); ("incoming", "/incoming")].

(** A complete profile with three checkers. *)
Definition plain : Profile :=
  profile (("method", "ftp") :: ("fqdn", "ftp.example.org") :: base_entries)
          (Some ["lintian"; "gpg"; "source"]).

(** The same profile with both hooks configured. *)
Definition hooked : Profile :=
  profile (("method", "ftp") :: ("fqdn", "ftp.example.org")
           :: ("pre_upload_command", "true")
           :: ("post_upload_command", "true") :: base_entries)
          (Some ["lintian"; "gpg"; "source"]).

(** No [fqdn] entry. *)
Definition no_fqdn : Profile :=
  profile (("method", "ftp") :: base_entries) None.

(** A method that no uploader class is registered for. *)
Definition unregistered : Profile :=
  profile (("method", "carrier-pigeon") :: ("fqdn", "ftp.example.org")
           :: base_entries) None.

(** A pre-hook that exits with status 1. *)
Definition failing_pre_hook : Profile :=
  profile (("method", "ftp") :: ("fqdn", "ftp.example.org")
           :: ("pre_upload_command", "false") :: base_entries) None.

(** A post-hook that exits with status 1. *)
Definition failing_post_hook : Profile :=
  profile (("method", "ftp") :: ("fqdn", "ftp.example.org")
           :: ("post_upload_command", "false") :: base_entries) None.

(** A post-hook that exits with status 1, on a backend whose transfers
    fail. *)
Definition failing_transfer_and_post_hook : Profile :=
  profile (("method", "flaky") :: ("fqdn", "ftp.example.org")
           :: ("post_upload_command", "false") :: base_entries) None.

(** A backend whose transfers fail, with hooks that succeed. *)
Definition flaky_backend : Profile :=
  profile (("method", "flaky") :: ("fqdn", "ftp.example.org")
           :: ("post_upload_command", "true") :: base_entries) None.

(** A backend whose [initialize] fails. *)
Definition unreachable : Profile :=
  profile (("method", "offline") :: ("fqdn", "ftp.example.org")
           :: base_entries) None.

Definition ftp : UploaderClass :=
  {| on_initialize := None;
     on_upload_file := fun _ => None;
     on_shutdown := None |}.

Definition flaky : UploaderClass :=
  {| on_initialize := None;
     on_upload_file := fun _ => Some (OtherError "connection lost");
     on_shutdown := None |}.

Definition offline : UploaderClass :=
  {| on_initialize := Some (OtherError "no route to host");
     on_upload_file := fun _ => None;
     on_shutdown := None |}.

(** The world in which [load_profile] returns [p]: the command [false]
    exits with 1, every other command with 0; the checker [gpg] rejects
    when [strict] is set. *)
Definition world (p : Profile) (strict : bool) : Env :=
  {| load_profile := fun _ => inr p;
     make_delayed_upload := fun p _ => inr p;
     force_passive_ftp_upload := fun p => inr p;
     run_checker := fun c _ _ =>
       if strict && String.eqb c "gpg"
       then Some (OtherError "gpg: no signature") else None;
     run_command := fun cmd =>
       if String.eqb cmd "false" then ("", "failed", 1%Z)
       else ("done", "", 0%Z);
     get_uploader := fun m =>
       if String.eqb m "ftp" then Some ftp
       else if String.eqb m "flaky" then Some flaky
       else if String.eqb m "offline" then Some offline
       else None;
     has_interface := fun i => String.eqb i "cli";
     may_read := fun _ => true;
     may_write := fun _ => true |}.


Definition args : Args :=
  {| host := "myhost"; force := false; simulate := false;
     delayed := None; passive := false |}.

Definition dry_run : Args :=
  {| host := "myhost"; force := false; simulate := true;
     delayed := None; passive := false |}.

End Sample.

(** ** The interactive interface *)

(** An interface object, as [get_obj('interfaces', name)()] builds it: what
    its three methods do.  [ui_query] gets the arguments of the prompt and
    returns the answer or raises. *)
Record Interface : Type := mkInterface {
  ui_initialize : option Exc;
  ui_query : list string -> Exc + string;
  ui_shutdown : option Exc
}.

(** The calls made on an interface object. *)
Inductive UiCall : Type :=
| UiInitialize
| UiQuery (args : list string)
| UiShutdown.

(** [AbstractUploader.prompt_ui], on [self._interface]: the three calls in
    sequence, the first exception ending the method.  The result is what
    the method returns or raises, with the calls it made. *)
Definition prompt_ui (interface : Interface) (args : list string)
  : (Exc + string) * list UiCall :=
  match ui_initialize interface with
  | Some e => (inl e, [UiInitialize])
  | None =>
      match ui_query interface args with
      | inl e => (inl e, [UiInitialize; UiQuery args])
      | inr ret =>
          match ui_shutdown interface with
          | Some e => (inl e, [UiInitialize; UiQuery args; UiShutdown])
          | None => (inr ret, [UiInitialize; UiQuery args; UiShutdown])
          end
      end
  end.

(** ** Further notions used in the statements *)

(** A trace with its [upload_file] calls taken out. *)
Definition without_uploads (t : list Event) : list Event :=
  omap (fun ev => match ev with EUploadFile _ => None | _ => Some ev end) t.

(** The same command line with [--simulate]. *)
Definition dry (args : Args) : Args :=
  {| host := host args; force := force args; simulate := true;
     delayed := delayed args; passive := passive args |}.

(** [m'] does what [m] does, but for the transfers: whenever [m] returns,
    [m'] returns the same value and leaves the same files, and its trace
    is that of [m] without the [upload_file] calls. *)
Definition agrees_but_for_transfers {A} (m m' : M A) : Prop :=
  forall fs a fs' t,
    m fs = (inr a, fs', t) -> m' fs = (inr a, fs', without_uploads t).

(** The file that an event opens, writes or closes. *)
Definition file_of (ev : Event) : option string :=
  match ev with
  | EOpen l | EWrite l _ | EClose l => Some l
  | _ => None
  end.

(** A computation all of whose events satisfy [Q], however it ends. *)
Definition everywhere {A} (Q : Event -> Prop) (m : M A) : Prop :=
  forall fs ev, ev ∈ events (m fs) -> Q ev.

(** The paths opened for writing, and the paths closed. *)
Definition opened (t : list Event) : list string :=
  omap (fun ev => match ev with EOpen l => Some l | _ => None end) t.

Definition closed (t : list Event) : list string :=
  omap (fun ev => match ev with EClose l => Some l | _ => None end) t.

(** The openings and closings of files in a trace. *)
Definition file_handles (t : list Event) : list Event :=
  omap (fun ev => match ev with
                  | EOpen _ | EClose _ => Some ev
                  | _ => None
                  end) t.

(** A computation that opens and closes no file. *)
Definition no_handles {A} (m : M A) : Prop :=
  forall fs, file_handles (events (m fs)) = [].

(** A trace without a call on the uploader object and without the opening
    or closing of a file. *)
Definition inert (t : list Event) : Prop :=
  backend_calls t = [] /\ opened t = [] /\ closed t = [].

(** A computation all of whose traces are inert. *)
Definition inert_run {A} (m : M A) : Prop :=
  forall fs, inert (events (m fs)).

(** A trace in which a file that is opened is closed by the last event,
    and at most one file is opened. *)
Definition closed_at_end (t : list Event) : Prop :=
  opened t = closed t /\
  (opened t = [] \/
   exists logfile t', opened t = [logfile] /\ t = t' ++ [EClose logfile]).

(** The calls on an uploader object in the order of its life: nothing,
    or [initialize], then [_pre_hook], then transfers of a prefix of the
    paths and [_post_hook], then [shutdown]; the sequence can stop after
    any of these steps but the transfers. *)
Definition lifecycle (paths : list string) (calls : list Event) : Prop :=
  calls = [] \/
  calls = [EInitialize] \/
  calls = [EInitialize; EPreHook] \/
  exists sent,
    sent `prefix_of` paths /\
    (calls = [EInitialize; EPreHook] ++ map EUploadFile sent ++ [EPostHook]
     \/ calls = [EInitialize; EPreHook] ++ map EUploadFile sent
                ++ [EPostHook; EShutdown]).

(** The text of a marker line, given its three fields. *)
Definition line_text (file target name : string) : string :=
  "Successfully uploaded " +:+ file +:+ " to " +:+ target
  +:+ " for " +:+ name +:+ "." +:+ Py.nl.

(** The interface a profile asks for: its [interface] entry, or [cli]. *)
Definition interface_name (p : Profile) : string :=
  default "cli" (settings p !! "interface").

(** More sample data: a body for the context manager, and interfaces. *)
Module Cases.

(** A body that sends one file and returns its name. *)
Definition send_one (obj : Uploader) : M string :=
  upload_file obj "pool/foo_1.0.dsc";; mret "pool/foo_1.0.dsc".

(** An interface whose prompt is interrupted. *)
Definition interrupted : Interface :=
  {| ui_initialize := None;
     ui_query := fun _ => inl (OtherError "interrupted");
     ui_shutdown := None |}.

(** An interface that answers every prompt with [yes]. *)
Definition agreeable : Interface :=
  {| ui_initialize := None;
     ui_query := fun _ => inr "yes";
     ui_shutdown := None |}.

(** A profile without the [incoming] entry. *)
Definition no_incoming : Profile :=
  Sample.profile [("method", "ftp"); ("fqdn", "ftp.example.org");
                  ("name", "myhost")] (Some ["lintian"]).

(** A profile without the [name] entry. *)
Definition nameless : Profile :=
  Sample.profile [("method", "ftp"); ("fqdn", "ftp.example.org")] None.

(** The same descriptor, read as an artifact set without files. *)
Definition bare : Changes :=
  {| get_changes_file := "foo_1.0_amd64.changes";
     get_filename := "foo_1.0_amd64.changes";
     get_package_name := "foo";
     get_files := [] |}.

(** A second destination. *)
Definition other_host : Profile :=
  Sample.profile [("method", "ftp"); ("fqdn", "ftp.example.net");
                  ("name", "otherhost"); ("incoming", "/incoming")] None.

(** A backend that fails on the descriptor only. *)
Definition picky : UploaderClass :=
  {| on_initialize := None;
     on_upload_file := fun path =>
       if String.eqb path "foo_1.0_amd64.changes"
       then Some (OtherError "permission denied") else None;
     on_shutdown := None |}.

End Cases.

(** ** Proof automation *)

(** Unfolds the monad operations and computes. *)
Ltac run :=
  unfold mbind, M_bind, bind, mret, M_ret, ret, raise, emit; simpl.

(** * Properties *)

(** ** Strings: [endswith] and slicing *)

Section StringFacts.

Lemma string_length_app (s x : string) :
  String.length (s +:+ x) = String.length s + String.length x.
Proof. induction s as [|c s IH]; simpl; [done | by rewrite IH]. Qed.

Lemma substring_whole (x : string) : substring 0 (String.length x) x = x.
Proof. induction x as [|c x IH]; simpl; [done | by rewrite IH]. Qed.

Lemma substring_skip_app (s x : string) :
  substring (String.length s) (String.length x) (s +:+ x) = x.
Proof. induction s as [|c s IH]; simpl; [apply substring_whole | done]. Qed.

Lemma substring_take_app (s x : string) :
  substring 0 (String.length s) (s +:+ x) = s.
Proof.
  induction s as [|c s IH]; simpl.
  - by destruct x.
  - by rewrite IH.
Qed.

Lemma substring_split (s : string) (n : nat) :
  n <= String.length s ->
  s = substring 0 n s +:+ substring n (String.length s - n) s.
Proof.
  revert n. induction s as [|c s IH]; intros n Hn; simpl in *.
  - by destruct n.
  - destruct n as [|n]; simpl.
    + by rewrite substring_whole.
    + change (String c s = String c (substring 0 n s +:+
                               substring n (String.length s - n) s)).
      f_equal. apply IH. lia.
Qed.

Lemma endswith_app (s x : string) : Py.endswith (s +:+ x) x = true.
Proof.
  unfold Py.endswith. rewrite string_length_app.
  replace (String.length s + String.length x - String.length x)
    with (String.length s) by lia.
  rewrite substring_skip_app, String.eqb_refl.
  apply andb_true_iff. split; [apply Nat.leb_le; lia | done].
Qed.

Lemma endswith_inv (s x : string) :
  Py.endswith s x = true -> s = Py.drop_last (String.length x) s +:+ x.
Proof.
  unfold Py.endswith, Py.drop_last.
  intros [Hle Heq]%andb_true_iff.
  apply Nat.leb_le in Hle. apply String.eqb_eq in Heq.
  rewrite (substring_split s (String.length s - String.length x)) at 1
    by lia.
  replace (String.length s - (String.length s - String.length x))
    with (String.length x) by lia.
  by rewrite Heq.
Qed.

Lemma endswith_spec (s x : string) :
  Py.endswith s x = true <-> exists base, s = base +:+ x.
Proof.
  split.
  - intros H. eexists. by apply endswith_inv.
  - intros [base ->]. apply endswith_app.
Qed.

Lemma drop_last_app (s x : string) :
  Py.drop_last (String.length x) (s +:+ x) = s.
Proof.
  unfold Py.drop_last. rewrite string_length_app.
  replace (String.length s + String.length x - String.length x)
    with (String.length s) by lia.
  apply substring_take_app.
Qed.

End StringFacts.

(** ** Unfolding the monad *)

Lemma run_bind {A B} (m : M A) (f : A -> M B) (fs : FS) :
  (m ≫= f) fs =
  match m fs with
  | (inl e, fs1, t1) => (inl e, fs1, t1)
  | (inr a, fs1, t1) =>
      match f a fs1 with
      | (r, fs2, t2) => (r, fs2, t1 ++ t2)
      end
  end.
Proof. reflexivity. Qed.

Lemma run_bind_inl {A B} (m : M A) (f : A -> M B) fs e fs1 t1 :
  m fs = (inl e, fs1, t1) -> (m ≫= f) fs = (inl e, fs1, t1).
Proof. intros H. by rewrite run_bind, H. Qed.

Lemma run_bind_inr {A B} (m : M A) (f : A -> M B) fs a fs1 t1 :
  m fs = (inr a, fs1, t1) ->
  (m ≫= f) fs = ((f a fs1).1.1, (f a fs1).1.2, t1 ++ (f a fs1).2).
Proof. intros H. rewrite run_bind, H. by destruct (f a fs1) as [[??]?]. Qed.

Lemma bind_inr_inv {A B} (m : M A) (f : A -> M B) fs b fs' t :
  (m ≫= f) fs = (inr b, fs', t) ->
  exists a fs1 t1 t2,
    m fs = (inr a, fs1, t1) /\ f a fs1 = (inr b, fs', t2) /\ t = t1 ++ t2.
Proof.
  rewrite run_bind.
  destruct (m fs) as [[[e|a] fs1] t1]; [done|].
  destruct (f a fs1) as [[r fs2] t2] eqn:Hf.
  intros [= -> -> <-]. by exists a, fs1, t1, t2.
Qed.

Lemma getitem_inr_inv (d : gmap string string) k fs v fs' t :
  getitem d k fs = (inr v, fs', t) -> d !! k = Some v /\ fs' = fs /\ t = [].
Proof.
  unfold getitem. destruct (d !! k); run; [|done].
  by intros [= -> <- <-].
Qed.

Lemma lift_inr_inv {A} (r : Exc + A) fs a fs' t :
  lift r fs = (inr a, fs', t) -> r = inr a /\ fs' = fs /\ t = [].
Proof. destruct r; run; [done|]. by intros [= -> <- <-]. Qed.

Lemma try_finally_inr_inv {A} (body : M A) (fin : M unit) fs a fs' t :
  try_finally body fin fs = (inr a, fs', t) ->
  exists fs1 t1 t2,
    body fs = (inr a, fs1, t1) /\ fin fs1 = (inr tt, fs', t2) /\ t = t1 ++ t2.
Proof.
  unfold try_finally.
  destruct (body fs) as [[r fs1] t1].
  destruct (fin fs1) as [[[e|[]] fs2] t2] eqn:Hfin; intros [= -> -> <-].
  by exists fs1, t1, t2.
Qed.

(** ** The idempotency guard: [determine_logfile] *)

Section Logfile.

Variables (env : Env) (changes : Changes) (conf : Profile) (args : Args).

Lemma determine_logfile_suffix (base d : string) (fs : FS) :
  get_changes_file changes = base +:+ ".changes" ->
  settings conf !! "name" = Some d ->
  let logfile := base +:+ "." +:+ d +:+ ".upload" in
  determine_logfile env changes conf args fs =
  (if readable env fs logfile && negb (force args)
   then inl (already_uploaded changes d logfile)
   else inr logfile,
   fs, [EAccess logfile]).
Proof.
  intros Hf Hname logfile.
  unfold determine_logfile. rewrite Hf.
  change xtn with ".changes".
  rewrite endswith_app, drop_last_app.
  unfold getitem, os_access. rewrite Hname. run.
  fold logfile.
  destruct (readable env fs logfile && negb (force args)); reflexivity.
Qed.

Lemma determine_logfile_inr_inv fs logfile fs' t :
  determine_logfile env changes conf args fs = (inr logfile, fs', t) ->
  exists d,
    settings conf !! "name" = Some d /\
    get_changes_file changes =
      Py.drop_last 8 (get_changes_file changes) +:+ ".changes" /\
    logfile = Py.drop_last 8 (get_changes_file changes)
              +:+ "." +:+ d +:+ ".upload" /\
    (readable env fs logfile = false \/ force args = true) /\
    fs' = fs /\ t = [EAccess logfile].
Proof.
  destruct (Py.endswith (get_changes_file changes) ".changes") eqn:He.
  - pose proof (endswith_inv _ _ He) as Hf. simpl in Hf.
    destruct (settings conf !! "name") as [d|] eqn:Hname.
    + rewrite (determine_logfile_suffix _ d fs Hf Hname).
      destruct (readable _ _ _ && negb _) eqn:Hg; [done|].
      intros [= <- <- <-]. exists d. repeat split; try done.
      apply andb_false_iff in Hg as [Hg|Hg].
      * by left.
      * right. by apply negb_false_iff.
    + unfold determine_logfile. change xtn with ".changes".
      rewrite He. unfold getitem. rewrite Hname. by run.
  - unfold determine_logfile. change xtn with ".changes".
    rewrite He. by run.
Qed.

End Logfile.

(** ** Claims on the idempotency guard *)

(** C7: for a descriptor [base.changes] and a destination named [d], the
    marker path that [determine_logfile] computes is the descriptor with
    the suffix [.changes] replaced by [.d.upload]: this is the one path it
    checks on disk, the path it returns, and, when [os.access] finds the
    marker and [--force] is not given, the path named in the error. *)
Theorem marker_path_replaces_suffix
    (env : Env) (changes : Changes) (conf : Profile) (args : Args)
    (base d : string) (fs : FS) :
  get_changes_file changes = base +:+ ".changes" ->
  settings conf !! "name" = Some d ->
  let logfile := base +:+ "." +:+ d +:+ ".upload" in
  let r := determine_logfile env changes conf args fs in
  events r = [EAccess logfile] /\
  final_fs r = fs /\
  outcome r =
    if readable env fs logfile && negb (force args)
    then inl (already_uploaded changes d logfile)
    else inr logfile.
Proof.
  intros Hf Hname logfile r. subst r.
  rewrite (determine_logfile_suffix env changes conf args base d fs Hf Hname).
  by repeat split.
Qed.

(** The example of the specification: [foo_1.0_amd64.changes] for
    [myhost] gives [foo_1.0_amd64.myhost.upload]. *)
Lemma marker_path_example :
  outcome (determine_logfile (Sample.world Sample.plain false)
             Sample.changes Sample.plain Sample.args ∅)
  = inr "foo_1.0_amd64.myhost.upload".
Proof.
  exact (proj2 (proj2 (marker_path_replaces_suffix
                         (Sample.world Sample.plain false)
                         Sample.changes Sample.plain Sample.args
                         "foo_1.0_amd64" "myhost" ∅ eq_refl eq_refl))).
Defined.

(** C8: when the descriptor does not end in [.changes],
    [determine_logfile] raises the exception for a malformed descriptor
    without a single access to the file system. *)
Theorem unrecognised_suffix_fails_before_io
    (env : Env) (changes : Changes) (conf : Profile) (args : Args)
    (fs : FS) :
  (forall base, get_changes_file changes <> base +:+ ".changes") ->
  determine_logfile env changes conf args fs
  = (inl (not_a_changes_file changes), fs, []).
Proof.
  intros Hno. unfold determine_logfile. change xtn with ".changes".
  destruct (Py.endswith (get_changes_file changes) ".changes") eqn:He.
  - apply endswith_spec in He as [base Hb]. by destruct (Hno base).
  - by run.
Qed.

Lemma unrecognised_suffix_example :
  determine_logfile (Sample.world Sample.plain false)
    Sample.tarball Sample.plain Sample.args ∅
  = (inl (UploadException
            "File foo_1.0.tar.gz does not look like a .changes file"),
     ∅, []).
Proof.
  apply (unrecognised_suffix_fails_before_io
           (Sample.world Sample.plain false)
           Sample.tarball Sample.plain Sample.args ∅).
  intros base Hb.
  assert (He : Py.endswith "foo_1.0.tar.gz" ".changes" = true)
    by (apply endswith_spec; by exists base).
  vm_compute in He. discriminate He.
Defined.




(** ** Claims on the validators *)

Section Checkers.

Variables (env : Env) (changes : Changes) (p : Profile).

Lemma run_checkers_pass (cs : list string) (fs : FS) :
  (forall c, c ∈ cs -> run_checker env c changes p = None) ->
  run_checkers env cs changes p fs = (inr tt, fs, map EChecker cs).
Proof.
  induction cs as [|c cs IH]; intros Hall; simpl; [done|].
  unfold call. rewrite (Hall c) by left. run.
  rewrite IH; [done|]. intros c' Hc'. apply Hall. by right.
Qed.

Lemma run_checkers_reject (pre post : list string) (c : string) (e : Exc)
    (fs : FS) :
  (forall c', c' ∈ pre -> run_checker env c' changes p = None) ->
  run_checker env c changes p = Some e ->
  run_checkers env (pre ++ c :: post) changes p fs
  = (inl e, fs, map EChecker (pre ++ [c])).
Proof.
  intros Hpre Hc. induction pre as [|c0 pre IH]; simpl.
  - unfold call. rewrite Hc. by run.
  - unfold call. rewrite (Hpre c0) by left. run.
    rewrite IH; [done|]. intros c' Hc'. apply Hpre. by right.
Qed.

(** Whatever the earlier checkers say, a rejecting checker at index [k]
    stops the loop at or before [k]. *)
Lemma run_checkers_stop (cs : list string) (k : nat) (c : string)
    (e : Exc) (fs : FS) :
  cs !! k = Some c ->
  run_checker env c changes p = Some e ->
  exists j e',
    j <= k /\
    run_checkers env cs changes p fs
    = (inl e', fs, map EChecker (take (S j) cs)).
Proof.
  revert k. induction cs as [|c0 cs IH]; intros k Hk Hc; [done|].
  destruct (run_checker env c0 changes p) as [e0|] eqn:H0.
  - exists 0, e0. split; [lia|]. simpl. unfold call. rewrite H0. by run.
  - destruct k as [|k]; simpl in Hk.
    + congruence.
    + destruct (IH k Hk Hc) as (j & e' & Hj & Hrun).
      exists (S j), e'. split; [lia|].
      simpl. unfold call. rewrite H0. run. by rewrite Hrun.
Qed.

Lemma run_checkers_inr_inv (cs : list string) fs fs' t :
  run_checkers env cs changes p fs = (inr tt, fs', t) ->
  fs' = fs /\ t = map EChecker cs.
Proof.
  revert fs' t. induction cs as [|c cs IH]; intros fs' t; simpl.
  - run. by intros [= <- <-].
  - unfold call. destruct (run_checker env c changes p); run; [done|].
    destruct (run_checkers env cs changes p fs) as [[[e|[]] fs1] t1] eqn:Hr;
      [done|].
    destruct (IH fs1 t1 eq_refl) as [-> ->]. by intros [= <- <-].
Qed.

End Checkers.

Lemma checkers_run_map (cs : list string) :
  checkers_run (map EChecker cs) = cs.
Proof. induction cs as [|c cs IH]; simpl; [done | by f_equal]. Qed.

(** [determine_logfile] only tests for one file. *)
Lemma determine_logfile_frame env changes conf args fs :
  let r := determine_logfile env changes conf args fs in
  final_fs r = fs /\
  (events r = [] \/ exists logfile, events r = [EAccess logfile]).
Proof.
  unfold determine_logfile.
  destruct (Py.endswith _ _); run; [|by split; [|left]].
  unfold getitem.
  destruct (settings conf !! "name") as [d|]; run; [|by split; [|left]].
  destruct (readable _ _ _ && negb _); run; split; try done; right; eauto.
Qed.

(** C6: when the checker at index [k] of the configured list rejects the
    artifact set, the upload fails; the checkers that ran are a prefix of
    the list of length at most [k + 1], so none of the checkers after [k]
    runs; no uploader class is instantiated, no call reaches a backend and
    the file system is left as it was.  When the guard lets the upload
    through and the checkers before [k] accept, the checkers up to [k] are
    exactly those that ran and the rejection of [k] is the error. *)
Theorem rejection_stops_validators_and_upload
    (env : Env) (changes : Changes) (args : Args) (fs : FS)
    (p0 p : Profile) (cs : list string) (k : nat) (c : string) (e : Exc) :
  load_profile env (host args) = inr p0 ->
  apply_overrides env args p0 = inr p ->
  checkers p = Some cs ->
  cs !! k = Some c ->
  run_checker env c changes p = Some e ->
  let r := invoke_dput env changes args fs in
  (exists e', outcome r = inl e') /\
  (exists j, j <= S k /\ checkers_run (events r) = take j cs) /\
  constructions (events r) = [] /\
  backend_calls (events r) = [] /\
  final_fs r = fs /\
  ((exists logfile,
       outcome (determine_logfile env changes p0 args fs) = inr logfile) ->
   (forall c', c' ∈ take k cs -> run_checker env c' changes p = None) ->
   outcome r = inl e /\ checkers_run (events r) = take (S k) cs).
Proof.
  intros Hp0 Hp Hcs Hk Hc r. subst r.
  unfold invoke_dput. rewrite Hp0.
  erewrite run_bind_inr by reflexivity.
  pose proof (determine_logfile_frame env changes p0 args fs) as [Hfs Hev].
  destruct (determine_logfile env changes p0 args fs) as [[[e0|logfile] fs1] t1]
    eqn:Hd; unfold final_fs, events, outcome in *; simpl in Hfs, Hev;
    subst fs1.
  - erewrite run_bind_inl by exact Hd. simpl.
    assert (checkers_run t1 = [] /\ constructions t1 = []
            /\ backend_calls t1 = []) as (Hc1 & Hc2 & Hc3)
      by (destruct Hev as [->|[l ->]]; done).
    split_and!; eauto.
    + exists 0. split; [lia|]. by rewrite take_0.
    + by intros [l Hl].
  - erewrite run_bind_inr by exact Hd.
    rewrite Hp. erewrite run_bind_inr by reflexivity.
    rewrite Hcs.
    assert (checkers_run t1 = [] /\ constructions t1 = []
            /\ backend_calls t1 = []) as (Hc1 & Hc2 & Hc3)
      by (destruct Hev as [->|[l ->]]; done).
    destruct (run_checkers_stop env changes p cs k c e fs Hk Hc)
      as (j & e' & Hj & Hrun).
    erewrite run_bind_inl by exact Hrun. simpl.
    unfold checkers_run, constructions, backend_calls in *.
    rewrite !omap_app, Hc1, Hc2, Hc3. simpl.
    fold (checkers_run (map EChecker (take (S j) cs))).
    rewrite checkers_run_map.
    split_and!; eauto.
    + exists (S j). split; [lia | done].
    + clear. induction (take (S j) cs); simpl; done.
    + clear. induction (take (S j) cs); simpl; done.
    + intros _ Hpre.
      pose proof (run_checkers_reject env changes p (take k cs)
                    (drop (S k) cs) c e fs Hpre Hc) as Hrun'.
      rewrite (take_drop_middle cs k c Hk) in Hrun'.
      rewrite Hrun' in Hrun. injection Hrun as He Ht.
      apply (f_equal checkers_run) in Ht.
      rewrite !checkers_run_map in Ht. rewrite <- Ht.
      split; [by subst | by rewrite (take_S_r cs k c Hk)].
Qed.

Lemma rejection_example :
  let r := invoke_dput (Sample.world Sample.plain true)
                       Sample.changes Sample.args ∅ in
  outcome r = inl (OtherError "gpg: no signature") /\
  checkers_run (events r) = ["lintian"; "gpg"] /\
  constructions (events r) = [] /\
  final_fs r = ∅.
Proof.
  destruct (rejection_stops_validators_and_upload
              (Sample.world Sample.plain true) Sample.changes Sample.args ∅
              Sample.plain Sample.plain ["lintian"; "gpg"; "source"] 1 "gpg"
              (OtherError "gpg: no signature")
              eq_refl eq_refl eq_refl eq_refl eq_refl)
    as (_ & _ & Hcon & _ & Hfs & Hexact).
  destruct Hexact as [Hout Hrun].
  - exists Sample.marker. vm_compute. reflexivity.
  - intros c' Hc'. vm_compute in Hc'.
    apply list_elem_of_singleton in Hc' as ->. reflexivity.
  - repeat split; assumption.
Defined.

(** ** The lifecycle manager *)

Section Lifecycle.

Variable env : Env.

Lemma run_hook_ok (self : Uploader) (hook : string) (fs : FS) :
  hook_fails env (_config self) hook = false ->
  _run_hook env self hook fs
  = (inr tt, fs, hook_trace env (_config self) hook).
Proof.
  unfold hook_fails, hook_trace, hook_command, _run_hook.
  destruct (settings (_config self) !! hook) as [cmd|]; [|done].
  destruct (Py.truthy cmd); [|done].
  destruct (run_command env cmd) as [[output stderr] rc]. simpl.
  intros Hrc%negb_false_iff%Z.eqb_eq. subst rc. by run.
Qed.

Lemma run_hook_failed (self : Uploader) (hook : string) (fs : FS) :
  hook_fails env (_config self) hook = true ->
  exists msg,
    _run_hook env self hook fs
    = (inl (DputError msg), fs, hook_trace env (_config self) hook).
Proof.
  unfold hook_fails, hook_trace, hook_command, _run_hook.
  destruct (settings (_config self) !! hook) as [cmd|]; [|done].
  destruct (Py.truthy cmd); [|done].
  destruct (run_command env cmd) as [[output stderr] rc]. simpl.
  intros Hrc%negb_true_iff%Z.eqb_neq. run.
  destruct (decide (rc = 0%Z)); [done|]. eauto.
Qed.

Lemma run_hook_inr_inv (self : Uploader) (hook : string) fs fs' t :
  _run_hook env self hook fs = (inr tt, fs', t) ->
  hook_fails env (_config self) hook = false /\
  fs' = fs /\ t = hook_trace env (_config self) hook.
Proof.
  destruct (hook_fails env (_config self) hook) eqn:Hf.
  - destruct (run_hook_failed self hook fs Hf) as [msg ->]. done.
  - rewrite (run_hook_ok self hook fs Hf). by intros [= <- <-].
Qed.

Lemma uploader_enter_inr_inv method profile fs obj fs' t :
  uploader_enter env method profile fs = (inr obj, fs', t) ->
  exists k,
    get_uploader env method = Some k /\
    obj = {| _config := profile; klass := k |} /\
    on_initialize k = None /\
    hook_fails env profile "pre_upload_command" = false /\
    fs' = fs /\
    t = [EConstruct method; EInitialize; EPreHook]
        ++ hook_trace env profile "pre_upload_command".
Proof.
  unfold uploader_enter.
  destruct (get_uploader env method) as [k|]; [|done].
  unfold AbstractUploader_init.
  destruct (has_interface env _); [|by run].
  unfold initialize, call, _pre_hook. run.
  destruct (on_initialize k) eqn:Hi; [done|]. simpl.
  destruct (_run_hook env {| _config := profile; klass := k |}
              "pre_upload_command" fs) as [[[e|[]] fs1] t1] eqn:Hh; [done|].
  apply run_hook_inr_inv in Hh as (Hok & -> & ->).
  intros [= <- <- <-]. exists k. by rewrite app_nil_r.
Qed.

Lemma uploader_exit_ok (obj : Uploader) (fs : FS) :
  hook_fails env (_config obj) "post_upload_command" = false ->
  uploader_exit env obj fs
  = (match on_shutdown (klass obj) with
     | Some e => inl e
     | None => inr tt
     end,
     fs,
     EPostHook :: hook_trace env (_config obj) "post_upload_command"
     ++ [EShutdown]).
Proof.
  intros Hok. unfold uploader_exit, _post_hook, shutdown, call. run.
  rewrite (run_hook_ok obj _ fs Hok).
  destruct (on_shutdown (klass obj)); by run.
Qed.

Lemma uploader_exit_failed (obj : Uploader) (fs : FS) :
  hook_fails env (_config obj) "post_upload_command" = true ->
  exists msg,
    uploader_exit env obj fs
    = (inl (DputError msg), fs,
       EPostHook :: hook_trace env (_config obj) "post_upload_command").
Proof.
  intros Hf. unfold uploader_exit, _post_hook. run.
  destruct (run_hook_failed obj _ fs Hf) as [msg ->]. eauto.
Qed.

(** One turn of the transfer loop. *)
Lemma transfer_loop_cons args p logfile obj path rest fs :
  transfer_loop args p logfile obj (path :: rest) fs =
  match settings p !! "name" with
  | None => (inl (KeyError "name"), fs, [])
  | Some _ =>
      match (if simulate args then None
             else on_upload_file (klass obj) path) with
      | Some e => (inl e, fs, [EUploadFile path])
      | None =>
          let sent := if simulate args then [] else [EUploadFile path] in
          match settings p !! "fqdn" with
          | None => (inl (KeyError "fqdn"), fs, sent)
          | Some _ =>
              let line := marker_line p path in
              let r := transfer_loop args p logfile obj rest
                         (appended logfile line fs) in
              (outcome r, final_fs r,
               sent ++ EWrite logfile line :: events r)
          end
      end
  end.
Proof.
  simpl.
  unfold log_line, upload_file, call, write, appended, marker_line, getitem,
    outcome, final_fs, events.
  destruct (settings p !! "name") as [name|]; [|by run].
  destruct (simulate args);
    [|destruct (on_upload_file (klass obj) path); [by run|]];
    (destruct (settings p !! "fqdn") as [fq|]; [|by run]);
    run; destruct (Py.truthy fq); simpl;
    by destruct (transfer_loop _ _ _ _ _ _) as [[??]?].
Qed.

End Lifecycle.

(** ** Counting calls *)

Lemma backend_calls_app (t1 t2 : list Event) :
  backend_calls (t1 ++ t2) = backend_calls t1 ++ backend_calls t2.
Proof. apply omap_app. Qed.

Lemma uploads_app (t1 t2 : list Event) :
  uploads (t1 ++ t2) = uploads t1 ++ uploads t2.
Proof. apply omap_app. Qed.

Lemma backend_calls_hook_trace env p hook :
  backend_calls (hook_trace env p hook) = [].
Proof. unfold hook_trace. by destruct (hook_command p hook). Qed.

Lemma uploads_hook_trace env p hook : uploads (hook_trace env p hook) = [].
Proof. unfold hook_trace. by destruct (hook_command p hook). Qed.

Lemma occurrences_app ev (t1 t2 : list Event) :
  occurrences ev (t1 ++ t2) = occurrences ev t1 + occurrences ev t2.
Proof. unfold occurrences. by rewrite filter_app, length_app. Qed.

Lemma occurrences_backend_calls ev (t : list Event) :
  backend_call ev = Some ev ->
  occurrences ev (backend_calls t) = occurrences ev t.
Proof.
  intros Hev. unfold occurrences, backend_calls.
  induction t as [|x t IH]; [done|].
  rewrite filter_cons. simpl omap.
  destruct (backend_call x) as [y|] eqn:Hx.
  - assert (y = x) as -> by (destruct x; simpl in Hx; congruence).
    simpl. rewrite filter_cons.
    destruct (decide (x = ev)); simpl; [f_equal|]; exact IH.
  - simpl. destruct (decide (x = ev)) as [->|]; [congruence | exact IH].
Qed.

Lemma occurrences_uploads ev (sent : list string) :
  (forall path, ev <> EUploadFile path) ->
  occurrences ev (map EUploadFile sent) = 0.
Proof.
  intros Hev. unfold occurrences.
  induction sent as [|path sent IH]; [done|].
  simpl map. rewrite filter_cons.
  destruct (decide (EUploadFile path = ev)) as [<-|]; [|done].
  by destruct (Hev path).
Qed.

(** The calls that the transfer loop makes on the uploader object are
    [upload_file] calls for a prefix of the paths, and there are none in a
    dry run. *)
Lemma transfer_loop_calls args p logfile obj paths fs :
  let r := transfer_loop args p logfile obj paths fs in
  backend_calls (events r) = map EUploadFile (uploads (events r)) /\
  uploads (events r) `prefix_of` (if simulate args then [] else paths).
Proof.
  revert fs. induction paths as [|path rest IH]; intros fs.
  - simpl. split; [done|]. by destruct (simulate args).
  - cbv zeta. rewrite transfer_loop_cons.
    destruct (settings p !! "name"); [|split; [done | apply prefix_nil]].
    destruct (simulate args) eqn:Hsim.
    + destruct (settings p !! "fqdn"); [|by split].
      specialize (IH (appended logfile (marker_line p path) fs)).
      cbv zeta in IH. unfold events in *. simpl. exact IH.
    + destruct (on_upload_file (klass obj) path).
      { split; [done|]. simpl. apply prefix_cons, prefix_nil. }
      destruct (settings p !! "fqdn").
      2:{ split; [done|]. simpl. apply prefix_cons, prefix_nil. }
      specialize (IH (appended logfile (marker_line p path) fs)).
      cbv zeta in IH. unfold events in *. simpl.
      destruct IH as [IH1 IH2]. split; [by f_equal | by apply prefix_cons].
Qed.

(** ** Claims on the lifecycle *)

(** The teardown when the post-hook does not fail: for an upload that
    reached the transfer loop, however the loop ends (after the last file,
    or with the exception of a transfer or of the log line), the calls on
    the uploader object are [initialize], [_pre_hook], one [upload_file]
    for each path of a prefix of the list, [_post_hook], [shutdown], in
    this order; [_post_hook] and [shutdown] are called exactly once. *)
Theorem teardown_after_transfer_loop
    (env : Env) (method : string) (profile : Profile) (args : Args)
    (logfile : string) (paths : list string) (fs : FS)
    (obj : Uploader) (fs0 : FS) (t0 : list Event) :
  uploader_enter env method profile fs = (inr obj, fs0, t0) ->
  hook_fails env profile "post_upload_command" = false ->
  let r := uploader env method profile
             (fun obj => transfer_loop args profile logfile obj paths) fs in
  exists sent,
    sent `prefix_of` paths /\
    backend_calls (events r)
    = [EInitialize; EPreHook] ++ map EUploadFile sent
      ++ [EPostHook; EShutdown] /\
    occurrences EPostHook (events r) = 1 /\
    occurrences EShutdown (events r) = 1.
Proof.
  intros Henter Hpost r.
  destruct (uploader_enter_inr_inv env _ _ _ _ _ _ Henter)
    as (k & Hk & Hobj & Hinit & Hpre & -> & ->).
  pose proof (transfer_loop_calls args profile logfile obj paths fs)
    as [Hcalls Hprefix].
  cbv zeta in Hcalls, Hprefix.
  assert (Hsent : uploads
            (events (transfer_loop args profile logfile obj paths fs))
            `prefix_of` paths).
  { destruct (simulate args); [|done].
    apply prefix_nil_inv in Hprefix as ->. apply prefix_nil. }
  set (sent := uploads
         (events (transfer_loop args profile logfile obj paths fs))) in *.
  assert (Hr : backend_calls (events r)
               = [EInitialize; EPreHook] ++ map EUploadFile sent
                 ++ [EPostHook; EShutdown]).
  { subst r. unfold uploader.
    erewrite run_bind_inr by exact Henter.
    unfold try_finally.
    destruct (transfer_loop args profile logfile obj paths fs)
      as [[rl fsl] tl] eqn:Hloop.
    rewrite uploader_exit_ok by (by subst obj).
    unfold events in *. simpl in Hcalls.
    destruct (on_shutdown (klass obj)); simpl;
      rewrite !backend_calls_app, Hcalls; simpl;
      rewrite !backend_calls_app, !backend_calls_hook_trace; done. }
  exists sent. split_and!; [done | done | |].
  - rewrite <- occurrences_backend_calls, Hr by done.
    rewrite !occurrences_app, occurrences_uploads by done. done.
  - rewrite <- occurrences_backend_calls, Hr by done.
    rewrite !occurrences_app, occurrences_uploads by done. done.
Qed.

(** A transfer error in the middle of the loop: the first [upload_file]
    raises, and the post-hook and [shutdown] still run. *)
Lemma teardown_example :
  let p := Sample.flaky_backend in
  let r := uploader (Sample.world p false) "flaky" p
             (fun obj => transfer_loop Sample.args p Sample.marker obj
                           (upload_paths Sample.changes)) ∅ in
  exists sent,
    sent `prefix_of` upload_paths Sample.changes /\
    backend_calls (events r)
    = [EInitialize; EPreHook] ++ map EUploadFile sent
      ++ [EPostHook; EShutdown] /\
    occurrences EPostHook (events r) = 1 /\
    occurrences EShutdown (events r) = 1.
Proof.
  apply (teardown_after_transfer_loop
           (Sample.world Sample.flaky_backend false) "flaky"
           Sample.flaky_backend Sample.args Sample.marker
           (upload_paths Sample.changes) ∅
           {| _config := Sample.flaky_backend; klass := Sample.flaky |}
           ∅ [EConstruct "flaky"; EInitialize; EPreHook]).
  - vm_compute. reflexivity.
  - vm_compute. reflexivity.
Defined.

(** When the post-hook fails, the exit of the context manager raises the
    error of the hook and never reaches [shutdown], whatever the loop did. *)
Lemma failing_post_hook_skips_shutdown
    (env : Env) (method : string) (profile : Profile) (args : Args)
    (logfile : string) (paths : list string) (fs : FS)
    (obj : Uploader) (fs0 : FS) (t0 : list Event) :
  uploader_enter env method profile fs = (inr obj, fs0, t0) ->
  hook_fails env profile "post_upload_command" = true ->
  let r := uploader env method profile
             (fun obj => transfer_loop args profile logfile obj paths) fs in
  (exists msg, outcome r = inl (DputError msg)) /\
  occurrences EShutdown (events r) = 0.
Proof.
  intros Henter Hpost r.
  destruct (uploader_enter_inr_inv env _ _ _ _ _ _ Henter)
    as (k & Hk & Hobj & Hinit & Hpre & -> & ->).
  pose proof (transfer_loop_calls args profile logfile obj paths fs)
    as [Hcalls _]. cbv zeta in Hcalls.
  subst r. unfold uploader.
  erewrite run_bind_inr by exact Henter.
  unfold try_finally.
  destruct (transfer_loop args profile logfile obj paths fs)
    as [[rl fsl] tl] eqn:Hloop.
  destruct (uploader_exit_failed env obj fsl) as [msg Hexit];
    [by subst obj|].
  rewrite Hexit. unfold outcome, events in *. simpl in *.
  split; [by exists msg|].
  rewrite <- occurrences_backend_calls by done.
  change (EConstruct method :: EInitialize :: EPreHook :: ?x)
    with ([EConstruct method; EInitialize; EPreHook] ++ x).
  change (EPostHook :: ?x) with ([EPostHook] ++ x).
  rewrite !backend_calls_app, !backend_calls_hook_trace, Hcalls.
  rewrite !occurrences_app, occurrences_uploads by done. done.
Qed.

(** C1: the code at a post-hook that exits with status 1.  The upload
    reaches the transfer loop and sends its three files, the post-hook
    is called once, and [shutdown] is not called at all. *)
Lemma shutdown_skipped_after_failing_post_hook :
  let r := invoke_dput (Sample.world Sample.failing_post_hook false)
                       Sample.changes Sample.args ∅ in
  backend_calls (events r)
  = [EInitialize; EPreHook;
     EUploadFile "pool/foo_1.0.dsc"; EUploadFile "pool/foo_1.0.tar.gz";
     EUploadFile "foo_1.0_amd64.changes";
     EPostHook] /\
  occurrences EPostHook (events r) = 1 /\
  occurrences EShutdown (events r) = 0 /\
  occurrences EShutdown (events r) <> 1.
Proof. vm_compute. repeat split; discriminate. Qed.

(** C4: the code at two inputs.  A pre-hook that fails after a successful
    [initialize]: the error of the hook is raised and [shutdown] is never
    called.  A transfer error followed by a failing post-hook: the error
    raised is that of the post-hook, not the transfer error that came
    first, and [shutdown] is never called. *)
Theorem failing_hook_leaves_backend_open :
  let r1 := invoke_dput (Sample.world Sample.failing_pre_hook false)
                        Sample.changes Sample.args ∅ in
  let r2 := invoke_dput
              (Sample.world Sample.failing_transfer_and_post_hook false)
              Sample.changes Sample.args ∅ in
  (outcome r1
   = inl (DputError "Command `false' returned an error: failed [err=1]") /\
   backend_calls (events r1) = [EInitialize; EPreHook]) /\
  (outcome r2
   = inl (DputError "Command `false' returned an error: failed [err=1]") /\
   outcome r2 <> inl (OtherError "connection lost") /\
   backend_calls (events r2)
   = [EInitialize; EPreHook; EUploadFile "pool/foo_1.0.dsc"; EPostHook]).
Proof. vm_compute. repeat split; discriminate. Qed.

(** ** A run that succeeds *)

Lemma string_app_assoc (a b c : string) : (a +:+ b) +:+ c = a +:+ b +:+ c.
Proof.
  induction a as [|x a IH]; [reflexivity|].
  change (String x ((a +:+ b) +:+ c) = String x (a +:+ b +:+ c)).
  by f_equal.
Qed.

Lemma string_app_nil_r (a : string) : a +:+ "" = a.
Proof.
  induction a as [|x a IH]; [reflexivity|].
  change (String x (a +:+ "") = String x a). by f_equal.
Qed.

(** Writing piece after piece to a file that holds [c]. *)
Lemma appended_pieces (logfile c : string) (f : string -> string)
    (paths : list string) (fs : FS) :
  foldl (fun fs path => appended logfile (f path) fs)
        (<[logfile := c]> fs) paths
  = <[logfile := c +:+ joined (f <$> paths)]> fs.
Proof.
  revert c. induction paths as [|path rest IH]; intros c; simpl.
  - by rewrite string_app_nil_r.
  - unfold appended at 2. rewrite lookup_insert_eq, insert_insert_eq. simpl.
    by rewrite IH, string_app_assoc.
Qed.

Lemma transfer_loop_inr_inv args p logfile obj paths fs fs' t :
  transfer_loop args p logfile obj paths fs = (inr tt, fs', t) ->
  fs' = foldl (fun fs path => appended logfile (marker_line p path) fs)
              fs paths /\
  t = transfer_trace args p logfile paths /\
  (paths <> [] ->
   is_Some (settings p !! "fqdn") /\ is_Some (settings p !! "name")).
Proof.
  revert fs t. induction paths as [|path rest IH]; intros fs t.
  - simpl. run. by intros [= <- <-].
  - rewrite transfer_loop_cons.
    destruct (settings p !! "name"); [|done].
    unfold transfer_trace. simpl flat_map.
    destruct (simulate args) eqn:Hsim.
    + destruct (settings p !! "fqdn"); [|done].
      destruct (transfer_loop args p logfile obj rest _)
        as [[r fs1] t1] eqn:Hrest.
      unfold outcome, final_fs, events. simpl. intros [= -> -> <-].
      destruct (IH _ _ Hrest) as (-> & -> & _).
      unfold transfer_trace. rewrite Hsim. eauto.
    + destruct (on_upload_file (klass obj) path); [done|].
      destruct (settings p !! "fqdn"); [|done].
      destruct (transfer_loop args p logfile obj rest _)
        as [[r fs1] t1] eqn:Hrest.
      unfold outcome, final_fs, events. simpl. intros [= -> -> <-].
      destruct (IH _ _ Hrest) as (-> & -> & _).
      unfold transfer_trace. rewrite Hsim. eauto.
Qed.

(** What a run of [invoke_dput] that returns has done. *)
Lemma invoke_dput_inr_inv env changes args fs fs' t :
  invoke_dput env changes args fs = (inr tt, fs', t) ->
  exists p0 p logfile method,
    load_profile env (host args) = inr p0 /\
    determine_logfile env changes p0 args fs
    = (inr logfile, fs, [EAccess logfile]) /\
    apply_overrides env args p0 = inr p /\
    settings p !! "method" = Some method /\
    is_Some (get_uploader env method) /\
    is_Some (settings p !! "fqdn") /\
    is_Some (settings p !! "name") /\
    fs' = <[logfile := joined (marker_line p <$> upload_paths changes)]> fs /\
    t = [EAccess logfile]
        ++ map EChecker (default [] (checkers p))
        ++ [EOpen logfile; EConstruct method; EInitialize; EPreHook]
        ++ hook_trace env p "pre_upload_command"
        ++ transfer_trace args p logfile (upload_paths changes)
        ++ [EPostHook]
        ++ hook_trace env p "post_upload_command"
        ++ [EShutdown; EClose logfile].
Proof.
  unfold invoke_dput. intros H.
  apply bind_inr_inv in H as (p0 & fa & ta & ra & Hload & H & ->).
  apply lift_inr_inv in Hload as (Hload & -> & ->).
  apply bind_inr_inv in H as (logfile & fb & tb & rb & Hlog & H & ->).
  destruct (determine_logfile_inr_inv _ _ _ _ _ _ _ _ Hlog)
    as (d & _ & _ & _ & _ & -> & ->).
  apply bind_inr_inv in H as (p & fc & tc & rc & Hover & H & ->).
  apply lift_inr_inv in Hover as (Hover & -> & ->).
  apply bind_inr_inv in H as ([] & fd & td & rd & Hcheck & H & ->).
  assert (fd = fs /\ td = map EChecker (default [] (checkers p)))
    as [-> ->].
  { destruct (checkers p) as [cs|]; simpl.
    - by apply run_checkers_inr_inv in Hcheck.
    - revert Hcheck. run. by intros [= <- <-]. }
  apply bind_inr_inv in H as (target & fe & te & re & Htarget & H & ->).
  assert (fe = fs /\ te = []) as [-> ->].
  { destruct (settings p0 !! "fqdn") as [fq|];
      [destruct (Py.truthy fq)|].
    - revert Htarget. run. by intros [= _ <- <-].
    - by apply getitem_inr_inv in Htarget as (_ & -> & ->).
    - by apply getitem_inr_inv in Htarget as (_ & -> & ->). }
  apply bind_inr_inv in H as (incoming & ff & tf & rf & Hinc & H & ->).
  apply getitem_inr_inv in Hinc as (_ & -> & ->).
  unfold with_open in H.
  apply bind_inr_inv in H as ([] & fg & tg & rg & Hopen & H & ->).
  revert Hopen. unfold open_w.
  destruct (may_write env logfile); [|done]. intros [= <- <-].
  apply try_finally_inr_inv in H as (fh & th & rh & H & Hclose & ->).
  revert Hclose. unfold close. run. intros [= <- <-].
  apply bind_inr_inv in H as (method & fi & ti & ri & Hmeth & H & ->).
  apply getitem_inr_inv in Hmeth as (Hmeth & -> & ->).
  unfold uploader in H.
  apply bind_inr_inv in H as (obj & fj & tj & rj & Henter & H & ->).
  apply uploader_enter_inr_inv in Henter
    as (k & Hk & -> & Hinit & Hpre & -> & ->).
  apply try_finally_inr_inv in H as (fk & tk & rk & Hloop & Hexit & ->).
  apply transfer_loop_inr_inv in Hloop as (-> & -> & Hkeys).
  destruct Hkeys as [Hfq Hname].
  { unfold upload_paths. by destruct (get_files changes). }
  destruct (hook_fails env p "post_upload_command") eqn:Hpost.
  { match type of Hexit with
    | uploader_exit _ ?o ?f = _ =>
        destruct (uploader_exit_failed env o f Hpost) as [msg Hfail]
    end.
    rewrite Hfail in Hexit. done. }
  rewrite uploader_exit_ok in Hexit by done. simpl in Hexit.
  destruct (on_shutdown k); [done|].
  injection Hexit as <- <-.
  exists p0, p, logfile, method.
  split_and!; try done.
  - apply (appended_pieces logfile "" (marker_line p)).
  - simpl. do 3 f_equal. rewrite <- !app_assoc. simpl.
    do 6 f_equal. by rewrite <- app_assoc.
Qed.

(** ** Computations that send nothing *)

Section SendsNothing.

Lemma sends_nothing_ret {A} (a : A) : sends_nothing (mret a : M A).
Proof. by intros fs. Qed.

Lemma sends_nothing_raise {A} (e : Exc) : sends_nothing (raise e : M A).
Proof. by intros fs. Qed.

Lemma sends_nothing_bind {A B} (m : M A) (f : A -> M B) :
  sends_nothing m -> (forall a, sends_nothing (f a)) ->
  sends_nothing (m ≫= f).
Proof.
  intros Hm Hf fs. rewrite run_bind.
  specialize (Hm fs). unfold events in *.
  destruct (m fs) as [[[e|a] fs1] t1]; simpl in *; [done|].
  specialize (Hf a fs1). unfold events in Hf.
  destruct (f a fs1) as [[r fs2] t2]; simpl in *.
  by rewrite uploads_app, Hm, Hf.
Qed.

Lemma sends_nothing_try_finally {A} (body : M A) (fin : M unit) :
  sends_nothing body -> sends_nothing fin ->
  sends_nothing (try_finally body fin).
Proof.
  intros Hb Hf fs. unfold try_finally.
  specialize (Hb fs). unfold events in *.
  destruct (body fs) as [[r fs1] t1]; simpl in *.
  specialize (Hf fs1). unfold events in Hf.
  destruct (fin fs1) as [[[e|[]] fs2] t2]; simpl in *;
    by rewrite uploads_app, Hb, Hf.
Qed.

Lemma sends_nothing_emit (ev : Event) :
  uploads [ev] = [] -> sends_nothing (emit ev).
Proof. by intros Hev fs. Qed.

Lemma sends_nothing_call (ev : Event) (o : option Exc) :
  uploads [ev] = [] -> sends_nothing (call ev o).
Proof.
  intros Hev. apply sends_nothing_bind; [by apply sends_nothing_emit|].
  intros _. destruct o; [apply sends_nothing_raise | apply sends_nothing_ret].
Qed.

Lemma sends_nothing_getitem d k : sends_nothing (getitem d k).
Proof.
  unfold getitem.
  destruct (d !! k); [apply sends_nothing_ret | apply sends_nothing_raise].
Qed.

Lemma sends_nothing_lift {A} (r : Exc + A) : sends_nothing (lift r).
Proof.
  destruct r; [apply sends_nothing_raise | apply sends_nothing_ret].
Qed.

Lemma sends_nothing_determine_logfile env changes conf args :
  sends_nothing (determine_logfile env changes conf args).
Proof.
  intros fs.
  destruct (determine_logfile_frame env changes conf args fs)
    as [_ [->|[l ->]]]; done.
Qed.

Lemma sends_nothing_run_checkers env cs changes p :
  sends_nothing (run_checkers env cs changes p).
Proof.
  induction cs as [|c cs IH]; simpl; [apply sends_nothing_ret|].
  apply sends_nothing_bind; [by apply sends_nothing_call | done].
Qed.

Lemma sends_nothing_run_hook env self hook :
  sends_nothing (_run_hook env self hook).
Proof.
  intros fs. destruct (hook_fails env (_config self) hook) eqn:Hf.
  - destruct (run_hook_failed env self hook fs Hf) as [msg ->].
    apply uploads_hook_trace.
  - rewrite (run_hook_ok env self hook fs Hf). apply uploads_hook_trace.
Qed.

Lemma sends_nothing_uploader_enter env method p :
  sends_nothing (uploader_enter env method p).
Proof.
  unfold uploader_enter.
  destruct (get_uploader env method) as [k|]; [|apply sends_nothing_raise].
  apply sends_nothing_bind; [by apply sends_nothing_emit|]. intros _.
  apply sends_nothing_bind.
  { unfold AbstractUploader_init. destruct (has_interface env _);
      [apply sends_nothing_ret | apply sends_nothing_raise]. }
  intros obj.
  apply sends_nothing_bind; [by apply sends_nothing_call|]. intros _.
  apply sends_nothing_bind; [|intros _; apply sends_nothing_ret].
  apply sends_nothing_bind; [by apply sends_nothing_emit|]. intros _.
  apply sends_nothing_run_hook.
Qed.

Lemma sends_nothing_uploader_exit env obj :
  sends_nothing (uploader_exit env obj).
Proof.
  apply sends_nothing_bind; [|intros _; by apply sends_nothing_call].
  apply sends_nothing_bind; [by apply sends_nothing_emit|]. intros _.
  apply sends_nothing_run_hook.
Qed.

Lemma sends_nothing_dry_transfer_loop args p logfile obj paths :
  simulate args = true ->
  sends_nothing (transfer_loop args p logfile obj paths).
Proof.
  intros Hsim fs.
  destruct (transfer_loop_calls args p logfile obj paths fs) as [_ Hpre].
  rewrite Hsim in Hpre. by apply prefix_nil_inv in Hpre.
Qed.

(** A dry run never calls [upload_file], however it ends. *)
Lemma sends_nothing_dry_run env changes args :
  simulate args = true -> sends_nothing (invoke_dput env changes args).
Proof.
  intros Hsim. unfold invoke_dput.
  apply sends_nothing_bind; [apply sends_nothing_lift|]. intros p0.
  apply sends_nothing_bind; [apply sends_nothing_determine_logfile|].
  intros logfile.
  apply sends_nothing_bind; [apply sends_nothing_lift|]. intros p.
  apply sends_nothing_bind.
  { destruct (checkers p);
      [apply sends_nothing_run_checkers | apply sends_nothing_ret]. }
  intros _. apply sends_nothing_bind.
  { destruct (settings p0 !! "fqdn") as [fq|];
      [destruct (Py.truthy fq)|];
      try apply sends_nothing_ret; apply sends_nothing_getitem. }
  intros _. apply sends_nothing_bind; [apply sends_nothing_getitem|].
  intros _. apply sends_nothing_bind.
  { intros fs. unfold open_w. by destruct (may_write env logfile). }
  intros _. apply sends_nothing_try_finally;
    [|by apply sends_nothing_emit].
  apply sends_nothing_bind; [apply sends_nothing_getitem|]. intros method.
  apply sends_nothing_bind; [apply sends_nothing_uploader_enter|].
  intros obj. apply sends_nothing_try_finally.
  - by apply sends_nothing_dry_transfer_loop.
  - apply sends_nothing_uploader_exit.
Qed.

End SendsNothing.

(** ** Observations on the trace of a run that succeeds *)

Lemma omap_checker_events {B} (f : Event -> option B) (cs : list string) :
  (forall c, f (EChecker c) = None) -> omap f (map EChecker cs) = [].
Proof.
  intros Hf. induction cs as [|c cs IH]; [done|].
  simpl. by rewrite Hf.
Qed.

Lemma dry_transfer_trace args p logfile paths :
  simulate args = true ->
  transfer_trace args p logfile paths
  = map (fun path => EWrite logfile (marker_line p path)) paths.
Proof.
  intros Hsim. unfold transfer_trace. rewrite Hsim.
  induction paths as [|path rest IH]; [done|]. simpl. by f_equal.
Qed.

Lemma omap_write_events {B} (f : Event -> option B) logfile
    (g : string -> string) (paths : list string) :
  (forall l d, f (EWrite l d) = None) ->
  omap f (map (fun path => EWrite logfile (g path)) paths) = [].
Proof.
  intros Hf. induction paths as [|path rest IH]; [done|].
  simpl. by rewrite Hf.
Qed.

Lemma writes_write_events logfile (g : string -> string)
    (paths : list string) :
  writes (map (fun path => EWrite logfile (g path)) paths)
  = (fun l => (logfile, l)) <$> (g <$> paths).
Proof. induction paths as [|path rest IH]; [done|]. simpl. by f_equal. Qed.

Lemma checkers_run_hook_trace env p hook :
  checkers_run (hook_trace env p hook) = [].
Proof. unfold hook_trace. by destruct (hook_command p hook). Qed.

Lemma writes_hook_trace env p hook : writes (hook_trace env p hook) = [].
Proof. unfold hook_trace. by destruct (hook_command p hook). Qed.

Lemma commands_run_hook_trace env p hook :
  commands_run (hook_trace env p hook) = option_list (hook_command p hook).
Proof. unfold hook_trace. by destruct (hook_command p hook). Qed.

(** ** Claims on the dry run *)

(** C5: in a dry run, [upload_file] is never called, however the run
    ends.  When the dry run returns, for an artifact set of [N] files the
    log holds [N + 1] lines, one for each file and one for the descriptor,
    each written by one [log.write]; every configured checker was run;
    the uploader object was initialised, both hooks were called, with
    their commands run, and the object was shut down. *)
Theorem dry_run_records_without_sending
    (env : Env) (changes : Changes) (args : Args) (fs : FS) :
  simulate args = true ->
  let r := invoke_dput env changes args fs in
  uploads (events r) = [] /\
  (outcome r = inr tt ->
   exists p0 p logfile,
     load_profile env (host args) = inr p0 /\
     apply_overrides env args p0 = inr p /\
     outcome (determine_logfile env changes p0 args fs) = inr logfile /\
     let lines := marker_line p <$> upload_paths changes in
     length lines = S (length (get_files changes)) /\
     writes (events r) = (fun l => (logfile, l)) <$> lines /\
     final_fs r = <[logfile := joined lines]> fs /\
     checkers_run (events r) = default [] (checkers p) /\
     backend_calls (events r)
     = [EInitialize; EPreHook; EPostHook; EShutdown] /\
     commands_run (events r) = hook_commands p).
Proof.
  intros Hsim r. split; [by apply sends_nothing_dry_run|].
  subst r. unfold outcome, final_fs, events.
  destruct (invoke_dput env changes args fs) as [[o fs'] t] eqn:Hrun.
  simpl. intros ->.
  apply invoke_dput_inr_inv in Hrun
    as (p0 & p & logfile & method & Hload & Hlog & Hover & _ & _ & _ & _
        & -> & ->).
  exists p0, p, logfile. rewrite Hlog.
  rewrite dry_transfer_trace by done.
  split_and!; try done.
  - unfold upload_paths. rewrite length_fmap, length_app. simpl. lia.
  - unfold writes. rewrite !omap_app.
    fold (writes (hook_trace env p "pre_upload_command")).
    fold (writes (hook_trace env p "post_upload_command")).
    rewrite !writes_hook_trace, omap_checker_events by done.
    fold (writes (map (fun path => EWrite logfile (marker_line p path))
                      (upload_paths changes))).
    rewrite writes_write_events. simpl. by rewrite app_nil_r.
  - unfold checkers_run. rewrite !omap_app.
    fold (checkers_run (hook_trace env p "pre_upload_command")).
    fold (checkers_run (hook_trace env p "post_upload_command")).
    fold (checkers_run (map EChecker (default [] (checkers p)))).
    rewrite !checkers_run_hook_trace, checkers_run_map,
      omap_write_events by done.
    simpl. by rewrite app_nil_r.
  - unfold backend_calls. rewrite !omap_app.
    fold (backend_calls (hook_trace env p "pre_upload_command")).
    fold (backend_calls (hook_trace env p "post_upload_command")).
    rewrite !backend_calls_hook_trace, omap_checker_events,
      omap_write_events by done.
    done.
  - unfold commands_run. rewrite !omap_app.
    fold (commands_run (hook_trace env p "pre_upload_command")).
    fold (commands_run (hook_trace env p "post_upload_command")).
    rewrite !commands_run_hook_trace, omap_checker_events,
      omap_write_events by done.
    simpl. by rewrite app_nil_r.
Qed.

(** A dry run of the sample upload: two files and the descriptor, three
    lines in the log, both hooks run, nothing sent. *)
Lemma dry_run_example :
  let r := invoke_dput (Sample.world Sample.hooked false)
                       Sample.changes Sample.dry_run ∅ in
  uploads (events r) = [] /\
  exists p0 p logfile,
    load_profile (Sample.world Sample.hooked false) "myhost" = inr p0 /\
    apply_overrides (Sample.world Sample.hooked false) Sample.dry_run p0
    = inr p /\
    outcome (determine_logfile (Sample.world Sample.hooked false)
               Sample.changes p0 Sample.dry_run ∅)
    = inr logfile /\
    let lines := marker_line p <$> upload_paths Sample.changes in
    length lines = 3 /\
    writes (events r) = (fun l => (logfile, l)) <$> lines /\
    final_fs r = <[logfile := joined lines]> ∅ /\
    checkers_run (events r) = default [] (checkers p) /\
    backend_calls (events r)
    = [EInitialize; EPreHook; EPostHook; EShutdown] /\
    commands_run (events r) = hook_commands p.
Proof.
  destruct (dry_run_records_without_sending
              (Sample.world Sample.hooked false) Sample.changes
              Sample.dry_run ∅ eq_refl) as [Hnone Hdone].
  split; [exact Hnone|].
  apply Hdone. vm_compute. reflexivity.
Defined.

(** ** Claims on the order of the log file and the backend *)

(** C2: the code at a profile whose method is not registered.  The upload
    fails with [DputConfigurationError], but only after the log file was
    tested and opened for writing: a marker that was not there is created
    empty, and with [--force] an existing marker is truncated. *)
Theorem unregistered_method_opens_marker_first :
  let env := Sample.world Sample.unregistered false in
  let r1 := invoke_dput env Sample.changes Sample.args ∅ in
  let forced :=
    {| host := "myhost"; force := true; simulate := false;
       delayed := None; passive := false |} in
  let r2 := invoke_dput env Sample.changes forced
              {[ Sample.marker := "an earlier record" ]} in
  (outcome r1
   = inl (DputConfigurationError
            "Failed to resolve method carrier-pigeon to an uploader class") /\
   events r1
   = [EAccess Sample.marker; EOpen Sample.marker; EClose Sample.marker] /\
   final_fs r1 !! Sample.marker = Some "") /\
  (outcome r2
   = inl (DputConfigurationError
            "Failed to resolve method carrier-pigeon to an uploader class") /\
   final_fs r2 !! Sample.marker = Some "").
Proof. vm_compute. repeat split. Qed.

(** C3: the code at two inputs.  In a dry run the marker is created and
    holds one line for each path, although nothing was sent.  With a
    backend whose [initialize] fails, the marker is opened, and so
    created, before the uploader class is instantiated, and it is left
    behind empty. *)
Theorem marker_is_created_before_the_backend :
  let r1 := invoke_dput (Sample.world Sample.plain false)
                        Sample.changes Sample.dry_run ∅ in
  let r2 := invoke_dput (Sample.world Sample.unreachable false)
                        Sample.changes Sample.args ∅ in
  (outcome r1 = inr tt /\
   uploads (events r1) = [] /\
   final_fs r1 !! Sample.marker
   = Some (joined (marker_line Sample.plain
                     <$> upload_paths Sample.changes))) /\
  (outcome r2 = inl (OtherError "no route to host") /\
   events r2
   = [EAccess Sample.marker; EOpen Sample.marker; EConstruct "offline";
      EInitialize; EClose Sample.marker] /\
   final_fs r2 !! Sample.marker = Some "").
Proof. vm_compute. repeat split. Qed.

(** ** Claims on the marker lines *)

(** An upload that returns wrote one line for each path, and its profile
    has an [fqdn] entry. *)
Lemma upload_records_every_path env changes args fs fs' t :
  invoke_dput env changes args fs = (inr tt, fs', t) ->
  exists p0 p logfile,
    load_profile env (host args) = inr p0 /\
    apply_overrides env args p0 = inr p /\
    is_Some (settings p !! "fqdn") /\
    fs' !! logfile
    = Some (joined (marker_line p <$> upload_paths changes)).
Proof.
  intros Hrun.
  apply invoke_dput_inr_inv in Hrun
    as (p0 & p & logfile & method & Hload & _ & Hover & _ & _ & Hfq & _
        & -> & _).
  exists p0, p, logfile. split_and!; try done. apply lookup_insert_eq.
Qed.

(** No upload with a profile that lacks the [fqdn] entry returns. *)
Lemma upload_without_fqdn_never_returns env changes args fs p0 p :
  load_profile env (host args) = inr p0 ->
  apply_overrides env args p0 = inr p ->
  settings p !! "fqdn" = None ->
  outcome (invoke_dput env changes args fs) <> inr tt.
Proof.
  intros Hload Hover Hfq Hout. unfold outcome in Hout.
  destruct (invoke_dput env changes args fs) as [[o fs'] t] eqn:Hrun.
  simpl in Hout. subst o.
  apply upload_records_every_path in Hrun
    as (p0' & p' & logfile & Hload' & Hover' & [fq Hfq'] & _).
  congruence.
Qed.

(** C10: the code at a profile without an [fqdn] entry.  The first file
    is sent, then the log line cannot be formatted: the upload ends with
    [KeyError] for the key [fqdn], with one file sent and no line
    written. *)
Theorem upload_without_fqdn_raises_key_error :
  let r := invoke_dput (Sample.world Sample.no_fqdn false)
                       Sample.changes Sample.args ∅ in
  settings Sample.no_fqdn !! "fqdn" = None /\
  outcome r = inl (KeyError "fqdn") /\
  uploads (events r) = ["pool/foo_1.0.dsc"] /\
  writes (events r) = [] /\
  final_fs r !! Sample.marker = Some "".
Proof. vm_compute. repeat split. Qed.

(** * Further properties of the code *)

(** ** Hooks *)

(** A hook whose entry is missing from the profile, or is the empty
    string, runs no command and returns. *)
Lemma run_hook_skipped
    (env : Env) (self : Uploader) (hook : string) (fs : FS) :
  settings (_config self) !! hook = None
  \/ settings (_config self) !! hook = Some "" ->
  _run_hook env self hook fs = (inr tt, fs, []).
Proof. unfold _run_hook. by intros [-> | ->]. Qed.

(** X1: when the pre-hook of the profile is missing or is the empty
    string, the set-up of the context manager runs no command: for a
    registered method and interface and an [initialize] that returns, it
    constructs the uploader, calls [initialize] and [_pre_hook], and hands
    the object to the body. *)
Theorem empty_pre_hook_is_skipped
    (env : Env) (method : string) (profile : Profile) (fs : FS)
    (k : UploaderClass) :
  get_uploader env method = Some k ->
  has_interface env (interface_name profile) = true ->
  on_initialize k = None ->
  settings profile !! "pre_upload_command" = None
  \/ settings profile !! "pre_upload_command" = Some "" ->
  uploader_enter env method profile fs
  = (inr {| _config := profile; klass := k |}, fs,
     [EConstruct method; EInitialize; EPreHook]).
Proof.
  intros Hk Hif Hinit Hpre.
  unfold uploader_enter, AbstractUploader_init. rewrite Hk.
  unfold interface_name in Hif.
  assert (has_interface env
            match settings profile !! "interface" with
            | Some i => i
            | None => "cli"
            end = true) as ->
    by (by destruct (settings profile !! "interface")).
  unfold initialize, call, _pre_hook. run. rewrite Hinit. simpl.
  by rewrite (run_hook_skipped env {| _config := profile; klass := k |}
                "pre_upload_command" fs Hpre).
Qed.

Lemma empty_pre_hook_example :
  uploader_enter (Sample.world Sample.plain false) "ftp" Sample.plain ∅
  = (inr {| _config := Sample.plain; klass := Sample.ftp |}, ∅,
     [EConstruct "ftp"; EInitialize; EPreHook]).
Proof.
  apply (empty_pre_hook_is_skipped
           (Sample.world Sample.plain false) "ftp" Sample.plain ∅
           Sample.ftp).
  - reflexivity.
  - reflexivity.
  - reflexivity.
  - left. reflexivity.
Defined.

(** X2: a hook with a command runs it once and writes its output to
    standard output whatever the exit status; the hook returns when the
    status is 0 and otherwise raises [DputError] with the command, the
    standard error and the status in its message. *)
Theorem hook_with_command_runs_it_once
    (env : Env) (self : Uploader) (hook cmd out err : string) (rc : Z)
    (fs : FS) :
  settings (_config self) !! hook = Some cmd ->
  cmd <> "" ->
  run_command env cmd = (out, err, rc) ->
  let r := _run_hook env self hook fs in
  outcome r
  = (if decide (rc = 0%Z) then inr tt
     else inl (DputError ("Command `" +:+ cmd +:+ "' returned an error: "
                          +:+ err +:+ " [err=" +:+ Py.fmt_d rc +:+ "]"))) /\
  events r = [ERunCommand cmd; EStdout out].
Proof.
  intros Hcmd Hne Hrun r. subst r. unfold _run_hook. rewrite Hcmd.
  unfold Py.truthy. apply String.eqb_neq in Hne. rewrite Hne. simpl.
  rewrite Hrun. run. by destruct (decide (rc = 0%Z)).
Qed.

Lemma hook_with_command_example :
  let r := _run_hook (Sample.world Sample.failing_post_hook false)
             {| _config := Sample.failing_post_hook; klass := Sample.ftp |}
             "post_upload_command" ∅ in
  outcome r
  = inl (DputError "Command `false' returned an error: failed [err=1]") /\
  events r = [ERunCommand "false"; EStdout ""].
Proof.
  apply (hook_with_command_runs_it_once
           (Sample.world Sample.failing_post_hook false)
           {| _config := Sample.failing_post_hook; klass := Sample.ftp |}
           "post_upload_command" "false" "" "failed" 1 ∅).
  - reflexivity.
  - discriminate.
  - reflexivity.
Defined.

(** ** Entering and leaving the context manager *)

(** The events of the set-up, however it ends: a prefix of the
    construction, [initialize], the pre-hook and its command. *)
Lemma uploader_enter_frame env method profile fs :
  let r := uploader_enter env method profile fs in
  final_fs r = fs /\
  (events r = []
   \/ events r = [EConstruct method]
   \/ events r = [EConstruct method; EInitialize]
   \/ events r = [EConstruct method; EInitialize; EPreHook]
                 ++ hook_trace env profile "pre_upload_command").
Proof.
  unfold uploader_enter.
  destruct (get_uploader env method) as [k|]; [|by split; [|left]].
  unfold AbstractUploader_init.
  destruct (has_interface env _); [|by split; [|right; left]].
  unfold initialize, call, _pre_hook. run.
  destruct (on_initialize k); [by split; [|right; right; left]|]. simpl.
  destruct (hook_fails env profile "pre_upload_command") eqn:Hf.
  - destruct (run_hook_failed env {| _config := profile; klass := k |}
                "pre_upload_command" fs Hf) as [msg ->].
    split; [done|]. by right; right; right.
  - rewrite (run_hook_ok env {| _config := profile; klass := k |}
               "pre_upload_command" fs Hf).
    split; [done|]. right; right; right. simpl. by rewrite app_nil_r.
Qed.

(** X3: the set-up of the context manager succeeds exactly when the method
    names a registered uploader class, the interface of the profile ([cli]
    unless the profile names another) is registered, [initialize] returns
    and the pre-hook does not fail. *)
Theorem setup_succeeds_iff
    (env : Env) (method : string) (profile : Profile) (fs : FS) :
  (exists obj, outcome (uploader_enter env method profile fs) = inr obj)
  <->
  (exists k, get_uploader env method = Some k /\ on_initialize k = None) /\
  has_interface env (interface_name profile) = true /\
  hook_fails env profile "pre_upload_command" = false.
Proof.
  split.
  - intros [obj Hobj]. unfold outcome in Hobj.
    destruct (uploader_enter env method profile fs) as [[o fs'] t] eqn:He.
    simpl in Hobj. subst o.
    pose proof He as He'.
    apply uploader_enter_inr_inv in He'
      as (k & Hk & _ & Hinit & Hpre & _ & _).
    split_and!; [by exists k | | done].
    revert He. unfold uploader_enter, AbstractUploader_init, interface_name.
    rewrite Hk.
    destruct (settings profile !! "interface"); simpl;
      by destruct (has_interface env _).
  - intros ([k [Hk Hinit]] & Hif & Hpre).
    exists {| _config := profile; klass := k |}.
    unfold uploader_enter, AbstractUploader_init. rewrite Hk.
    unfold interface_name in Hif.
    assert (has_interface env
              match settings profile !! "interface" with
              | Some i => i
              | None => "cli"
              end = true) as ->
      by (by destruct (settings profile !! "interface")).
    unfold initialize, call, _pre_hook. run. rewrite Hinit. simpl.
    by rewrite (run_hook_ok env {| _config := profile; klass := k |}
                  "pre_upload_command" fs Hpre).
Qed.

Lemma occurrences_cons_ne ev x (t : list Event) :
  x <> ev -> occurrences ev (x :: t) = occurrences ev t.
Proof.
  intros Hne. unfold occurrences. rewrite filter_cons.
  by destruct (decide (x = ev)).
Qed.

Lemma occurrences_hook_trace ev env p hook :
  backend_call ev = Some ev -> occurrences ev (hook_trace env p hook) = 0.
Proof.
  intros Hev.
  by rewrite <- occurrences_backend_calls, backend_calls_hook_trace.
Qed.

(** X4: when the set-up fails (no such method, no such interface,
    [initialize] raising, or the pre-hook failing), the context manager
    raises that error without running the body, and calls neither the
    post-hook nor [shutdown]: a backend whose pre-hook failed stays
    initialised. *)
Theorem failed_setup_skips_body_and_teardown {A}
    (env : Env) (method : string) (profile : Profile)
    (body : Uploader -> M A) (fs : FS) (e : Exc) :
  outcome (uploader_enter env method profile fs) = inl e ->
  let r := uploader env method profile body fs in
  outcome r = inl e /\
  final_fs r = fs /\
  events r = events (uploader_enter env method profile fs) /\
  occurrences EPostHook (events r) = 0 /\
  occurrences EShutdown (events r) = 0.
Proof.
  intros He r. subst r. unfold uploader.
  pose proof (uploader_enter_frame env method profile fs) as [Hfs Hev].
  unfold outcome, final_fs, events in *.
  destruct (uploader_enter env method profile fs) as [[o fs'] t] eqn:Hrun.
  simpl in *. subst o fs'.
  erewrite run_bind_inl by exact Hrun. simpl.
  split_and!; try done.
  - destruct Hev as [->|[->|[->| ->]]]; try done.
    rewrite !occurrences_cons_ne by done.
    by apply occurrences_hook_trace.
  - destruct Hev as [->|[->|[->| ->]]]; try done.
    rewrite !occurrences_cons_ne by done.
    by apply occurrences_hook_trace.
Qed.

Lemma failed_setup_example :
  let env := Sample.world Sample.failing_pre_hook false in
  let r := uploader env "ftp" Sample.failing_pre_hook Cases.send_one ∅ in
  outcome r
  = inl (DputError "Command `false' returned an error: failed [err=1]") /\
  final_fs r = ∅ /\
  events r = events (uploader_enter env "ftp" Sample.failing_pre_hook ∅) /\
  occurrences EPostHook (events r) = 0 /\
  occurrences EShutdown (events r) = 0.
Proof.
  apply (failed_setup_skips_body_and_teardown
           (Sample.world Sample.failing_pre_hook false) "ftp"
           Sample.failing_pre_hook Cases.send_one ∅).
  vm_compute. reflexivity.
Defined.

(** X5: once the set-up has succeeded and the post-hook does not fail, the
    context manager runs the body, then the post-hook, then [shutdown],
    and hands on what the body returned or raised, unless [shutdown]
    itself raises, in which case that exception takes its place. *)
Theorem manager_hands_on_body_outcome {A}
    (env : Env) (method : string) (profile : Profile)
    (body : Uploader -> M A) (fs : FS)
    (obj : Uploader) (fs0 : FS) (t0 : list Event) :
  uploader_enter env method profile fs = (inr obj, fs0, t0) ->
  hook_fails env profile "post_upload_command" = false ->
  let rb := body obj fs in
  let r := uploader env method profile body fs in
  outcome r = match on_shutdown (klass obj) with
              | Some e => inl e
              | None => outcome rb
              end /\
  final_fs r = final_fs rb /\
  events r = t0 ++ events rb
             ++ EPostHook :: hook_trace env profile "post_upload_command"
             ++ [EShutdown].
Proof.
  intros Henter Hpost rb r. subst rb r.
  destruct (uploader_enter_inr_inv env _ _ _ _ _ _ Henter)
    as (k & Hk & Hobj & Hinit & Hpre & -> & Ht0).
  unfold uploader. erewrite run_bind_inr by exact Henter.
  unfold try_finally.
  destruct (body obj fs) as [[rb fsb] tb].
  rewrite uploader_exit_ok by (by subst obj).
  unfold outcome, final_fs, events. subst obj. simpl.
  by destruct (on_shutdown k).
Qed.

Lemma manager_hands_on_example :
  let env := Sample.world Sample.flaky_backend false in
  let r := uploader env "flaky" Sample.flaky_backend Cases.send_one ∅ in
  outcome r = inl (OtherError "connection lost") /\
  final_fs r = ∅ /\
  events r = [EConstruct "flaky"; EInitialize; EPreHook;
              EUploadFile "pool/foo_1.0.dsc";
              EPostHook; ERunCommand "true"; EStdout "done"; EShutdown].
Proof.
  exact (manager_hands_on_body_outcome
           (Sample.world Sample.flaky_backend false) "flaky"
           Sample.flaky_backend Cases.send_one ∅
           {| _config := Sample.flaky_backend; klass := Sample.flaky |}
           ∅ [EConstruct "flaky"; EInitialize; EPreHook]
           eq_refl eq_refl).
Defined.

(** X6: once the set-up has succeeded, a failing post-hook makes the
    context manager raise the [DputError] of the hook whatever the body
    returned or raised, and the manager ends there: [shutdown] is not
    called. *)
Theorem failing_post_hook_replaces_body_outcome {A}
    (env : Env) (method : string) (profile : Profile)
    (body : Uploader -> M A) (fs : FS)
    (obj : Uploader) (fs0 : FS) (t0 : list Event) :
  uploader_enter env method profile fs = (inr obj, fs0, t0) ->
  hook_fails env profile "post_upload_command" = true ->
  let rb := body obj fs in
  let r := uploader env method profile body fs in
  (exists msg, outcome r = inl (DputError msg)) /\
  final_fs r = final_fs rb /\
  events r = t0 ++ events rb
             ++ EPostHook :: hook_trace env profile "post_upload_command".
Proof.
  intros Henter Hpost rb r. subst rb r.
  destruct (uploader_enter_inr_inv env _ _ _ _ _ _ Henter)
    as (k & Hk & Hobj & Hinit & Hpre & -> & Ht0).
  unfold uploader. erewrite run_bind_inr by exact Henter.
  unfold try_finally.
  destruct (body obj fs) as [[rb fsb] tb].
  destruct (uploader_exit_failed env obj fsb) as [msg Hexit];
    [by subst obj|].
  rewrite Hexit. unfold outcome, final_fs, events. subst obj. simpl.
  split_and!; [by exists msg | done | done].
Qed.

Lemma failing_post_hook_example :
  let env := Sample.world Sample.failing_post_hook false in
  let r := uploader env "ftp" Sample.failing_post_hook Cases.send_one ∅ in
  (exists msg, outcome r = inl (DputError msg)) /\
  final_fs r = ∅ /\
  events r = [EConstruct "ftp"; EInitialize; EPreHook;
              EUploadFile "pool/foo_1.0.dsc";
              EPostHook; ERunCommand "false"; EStdout ""].
Proof.
  exact (failing_post_hook_replaces_body_outcome
           (Sample.world Sample.failing_post_hook false) "ftp"
           Sample.failing_post_hook Cases.send_one ∅
           {| _config := Sample.failing_post_hook; klass := Sample.ftp |}
           ∅ [EConstruct "ftp"; EInitialize; EPreHook]
           eq_refl eq_refl).
Defined.

(** ** The marker path *)

Lemma string_app_cancel_r (a b x : string) : a +:+ x = b +:+ x -> a = b.
Proof.
  intros H.
  assert (Hlen : String.length a = String.length b).
  { apply (f_equal String.length) in H.
    rewrite !string_length_app in H. lia. }
  rewrite <- (substring_take_app a x), H, Hlen.
  apply substring_take_app.
Qed.

(** X7: [determine_logfile] never changes the file system, and the only
    thing it does there is to test at most one path for readability. *)
Theorem determine_logfile_only_tests
    (env : Env) (changes : Changes) (conf : Profile) (args : Args)
    (fs : FS) :
  let r := determine_logfile env changes conf args fs in
  final_fs r = fs /\
  (events r = [] \/ exists logfile, events r = [EAccess logfile]).
Proof. apply determine_logfile_frame. Qed.

Lemma readable_false env fs path :
  readable env fs path = false
  <-> fs !! path = None \/ may_read env path = false.
Proof.
  unfold readable. rewrite andb_false_iff, bool_decide_eq_false.
  by rewrite eq_None_not_Some.
Qed.

(** When [determine_logfile] returns, and what. *)
Lemma determine_logfile_inr_iff
    (env : Env) (changes : Changes) (conf : Profile) (args : Args)
    (fs : FS) (logfile : string) :
  outcome (determine_logfile env changes conf args fs) = inr logfile
  <->
  exists base d,
    get_changes_file changes = base +:+ ".changes" /\
    settings conf !! "name" = Some d /\
    logfile = base +:+ "." +:+ d +:+ ".upload" /\
    (fs !! logfile = None \/ may_read env logfile = false
     \/ force args = true).
Proof.
  split.
  - unfold outcome.
    destruct (determine_logfile env changes conf args fs)
      as [[o fs'] t] eqn:Hd.
    simpl. intros ->.
    apply determine_logfile_inr_inv in Hd
      as (d & Hname & Hf & Hl & Hguard & _ & _).
    exists (Py.drop_last 8 (get_changes_file changes)), d.
    split_and!; try done.
    destruct Hguard as [Hr%readable_false | Hforce]; tauto.
  - intros (base & d & Hf & Hname & -> & Hguard).
    rewrite (determine_logfile_suffix env changes conf args base d fs
               Hf Hname).
    unfold outcome. simpl.
    assert (readable env fs (base +:+ "." +:+ d +:+ ".upload") = false
            \/ force args = true) as [-> | ->].
    { rewrite readable_false. tauto. }
    + done.
    + by rewrite andb_false_r.
Qed.

(** X8: [determine_logfile] returns a path exactly when the descriptor is
    [base.changes], the profile has a [name] entry [d], and the
    [os.access] test of the marker [base.d.upload] fails (the marker is
    absent, or the user may not read it) or [--force] is given; the path
    is that marker. *)
Theorem determine_logfile_returns_iff
    (env : Env) (changes : Changes) (conf : Profile) (args : Args)
    (fs : FS) (logfile : string) :
  outcome (determine_logfile env changes conf args fs) = inr logfile
  <->
  exists base d,
    get_changes_file changes = base +:+ ".changes" /\
    settings conf !! "name" = Some d /\
    logfile = base +:+ "." +:+ d +:+ ".upload" /\
    (fs !! logfile = None \/ may_read env logfile = false
     \/ force args = true).
Proof. apply determine_logfile_inr_iff. Qed.

(** X9: for a descriptor with the [.changes] suffix and a profile without
    a [name] entry, [determine_logfile] raises [KeyError] for [name]
    before it looks at the file system. *)
Theorem marker_needs_destination_name
    (env : Env) (changes : Changes) (conf : Profile) (args : Args)
    (fs : FS) (base : string) :
  get_changes_file changes = base +:+ ".changes" ->
  settings conf !! "name" = None ->
  determine_logfile env changes conf args fs
  = (inl (KeyError "name"), fs, []).
Proof.
  intros Hf Hname. unfold determine_logfile.
  change xtn with ".changes". rewrite Hf, endswith_app.
  unfold getitem. rewrite Hname. by run.
Qed.

Lemma marker_needs_destination_name_example :
  determine_logfile (Sample.world Sample.plain false)
    Sample.changes Cases.nameless Sample.args ∅
  = (inl (KeyError "name"), ∅, []).
Proof.
  exact (marker_needs_destination_name
           (Sample.world Sample.plain false)
           Sample.changes Cases.nameless Sample.args ∅ "foo_1.0_amd64"
           eq_refl eq_refl).
Defined.

(** X10: for one descriptor, two destinations get the same marker path
    only if they have the same name. *)
Theorem marker_tells_destinations_apart
    (env1 env2 : Env) (changes : Changes) (conf1 conf2 : Profile)
    (args1 args2 : Args) (fs1 fs2 : FS) (logfile : string) :
  outcome (determine_logfile env1 changes conf1 args1 fs1) = inr logfile ->
  outcome (determine_logfile env2 changes conf2 args2 fs2) = inr logfile ->
  settings conf1 !! "name" = settings conf2 !! "name".
Proof.
  intros H1 H2.
  apply determine_logfile_inr_iff in H1
    as (b1 & d1 & Hf1 & Hn1 & Hl1 & _).
  apply determine_logfile_inr_iff in H2
    as (b2 & d2 & Hf2 & Hn2 & Hl2 & _).
  rewrite Hn1, Hn2. f_equal.
  assert (b1 = b2) as ->.
  { rewrite Hf1 in Hf2. by apply string_app_cancel_r in Hf2. }
  rewrite Hl1 in Hl2.
  apply (inj (String.app b2)) in Hl2.
  apply (inj (String.app ".")) in Hl2.
  by apply string_app_cancel_r in Hl2.
Qed.

Lemma marker_tells_destinations_apart_example :
  settings Sample.plain !! "name" = settings Sample.hooked !! "name".
Proof.
  apply (marker_tells_destinations_apart
           (Sample.world Sample.plain false)
           (Sample.world Sample.hooked false)
           Sample.changes Sample.plain Sample.hooked Sample.args Sample.args
           ∅ ∅ Sample.marker).
  - vm_compute. reflexivity.
  - vm_compute. reflexivity.
Defined.

(** X11: for one destination, two descriptors get the same marker path
    only if they are the same file name. *)
Theorem marker_tells_descriptors_apart
    (env1 env2 : Env) (changes1 changes2 : Changes) (conf : Profile)
    (args1 args2 : Args) (fs1 fs2 : FS) (logfile : string) :
  outcome (determine_logfile env1 changes1 conf args1 fs1) = inr logfile ->
  outcome (determine_logfile env2 changes2 conf args2 fs2) = inr logfile ->
  get_changes_file changes1 = get_changes_file changes2.
Proof.
  intros H1 H2.
  apply determine_logfile_inr_iff in H1
    as (b1 & d1 & Hf1 & Hn1 & Hl1 & _).
  apply determine_logfile_inr_iff in H2
    as (b2 & d2 & Hf2 & Hn2 & Hl2 & _).
  rewrite Hn1 in Hn2. injection Hn2 as <-.
  rewrite Hl1 in Hl2.
  apply (string_app_cancel_r b1 b2 ("." +:+ d1 +:+ ".upload")) in Hl2.
  by rewrite Hf1, Hf2, Hl2.
Qed.

Lemma marker_tells_descriptors_apart_example :
  get_changes_file Sample.changes = get_changes_file Cases.bare.
Proof.
  apply (marker_tells_descriptors_apart
           (Sample.world Sample.plain false)
           (Sample.world Sample.plain false)
           Sample.changes Cases.bare Sample.plain Sample.args Sample.args
           ∅ ∅ Sample.marker).
  - vm_compute. reflexivity.
  - vm_compute. reflexivity.
Defined.

(** ** The files an upload opens and writes *)

Section Everywhere.

Variable Q : Event -> Prop.

Lemma everywhere_ret {A} (a : A) : everywhere Q (mret a : M A).
Proof. intros fs ev Hev. by apply elem_of_nil in Hev. Qed.

Lemma everywhere_raise {A} (e : Exc) : everywhere Q (raise e : M A).
Proof. intros fs ev Hev. by apply elem_of_nil in Hev. Qed.

Lemma everywhere_emit (ev : Event) : Q ev -> everywhere Q (emit ev).
Proof.
  intros HQ fs ev' Hev. by apply list_elem_of_singleton in Hev as ->.
Qed.

Lemma everywhere_bind {A B} (m : M A) (f : A -> M B) :
  everywhere Q m -> (forall a, everywhere Q (f a)) ->
  everywhere Q (m ≫= f).
Proof.
  intros Hm Hf fs ev. rewrite run_bind.
  specialize (Hm fs ev). unfold events in *.
  destruct (m fs) as [[[e|a] fs1] t1]; simpl in *; [done|].
  specialize (Hf a fs1 ev). unfold events in Hf.
  destruct (f a fs1) as [[r fs2] t2]; simpl in *.
  intros [H1|H2]%elem_of_app; auto.
Qed.

Lemma everywhere_try_finally {A} (body : M A) (fin : M unit) :
  everywhere Q body -> everywhere Q fin ->
  everywhere Q (try_finally body fin).
Proof.
  intros Hb Hf fs ev. unfold try_finally.
  specialize (Hb fs ev). unfold events in *.
  destruct (body fs) as [[r fs1] t1]; simpl in *.
  specialize (Hf fs1 ev). unfold events in Hf.
  destruct (fin fs1) as [[[e|[]] fs2] t2]; simpl in *;
    intros [H1|H2]%elem_of_app; auto.
Qed.

Lemma everywhere_call (ev : Event) (o : option Exc) :
  Q ev -> everywhere Q (call ev o).
Proof.
  intros HQ. apply everywhere_bind; [by apply everywhere_emit|].
  intros _. destruct o; [apply everywhere_raise | apply everywhere_ret].
Qed.

Lemma everywhere_getitem d k : everywhere Q (getitem d k).
Proof.
  unfold getitem.
  destruct (d !! k); [apply everywhere_ret | apply everywhere_raise].
Qed.

Lemma everywhere_lift {A} (r : Exc + A) : everywhere Q (lift r).
Proof. destruct r; [apply everywhere_raise | apply everywhere_ret]. Qed.

(** From here on [Q] holds of every event that is not the opening, the
    writing or the closing of a file. *)
Hypothesis Q_other : forall ev, file_of ev = None -> Q ev.

Lemma everywhere_run_checkers env cs changes p :
  everywhere Q (run_checkers env cs changes p).
Proof.
  induction cs as [|c cs IH]; simpl; [apply everywhere_ret|].
  apply everywhere_bind; [|done]. by apply everywhere_call, Q_other.
Qed.

Lemma everywhere_run_hook env self hook :
  everywhere Q (_run_hook env self hook).
Proof.
  unfold _run_hook.
  destruct (settings (_config self) !! hook) as [cmd|];
    [|apply everywhere_ret].
  destruct (Py.truthy cmd); [|apply everywhere_ret].
  destruct (run_command env cmd) as [[output stderr] rc].
  apply everywhere_bind; [by apply everywhere_emit, Q_other|]. intros _.
  apply everywhere_bind; [by apply everywhere_emit, Q_other|]. intros _.
  destruct (decide (rc = 0%Z));
    [apply everywhere_ret | apply everywhere_raise].
Qed.

Lemma everywhere_uploader_enter env method p :
  everywhere Q (uploader_enter env method p).
Proof.
  unfold uploader_enter.
  destruct (get_uploader env method) as [k|]; [|apply everywhere_raise].
  apply everywhere_bind; [by apply everywhere_emit, Q_other|]. intros _.
  apply everywhere_bind.
  { unfold AbstractUploader_init. destruct (has_interface env _);
      [apply everywhere_ret | apply everywhere_raise]. }
  intros obj.
  apply everywhere_bind; [by apply everywhere_call, Q_other|]. intros _.
  apply everywhere_bind; [|intros _; apply everywhere_ret].
  apply everywhere_bind; [by apply everywhere_emit, Q_other|]. intros _.
  apply everywhere_run_hook.
Qed.

Lemma everywhere_uploader_exit env obj :
  everywhere Q (uploader_exit env obj).
Proof.
  apply everywhere_bind;
    [|intros _; by apply everywhere_call, Q_other].
  apply everywhere_bind; [by apply everywhere_emit, Q_other|]. intros _.
  apply everywhere_run_hook.
Qed.

Lemma everywhere_transfer_loop args p logfile obj paths :
  (forall data, Q (EWrite logfile data)) ->
  everywhere Q (transfer_loop args p logfile obj paths).
Proof.
  intros Hwrite.
  induction paths as [|path rest IH]; simpl; [apply everywhere_ret|].
  apply everywhere_bind; [apply everywhere_getitem|]. intros _.
  apply everywhere_bind.
  { destruct (simulate args);
      [apply everywhere_ret | by apply everywhere_call, Q_other]. }
  intros _. apply everywhere_bind.
  { unfold log_line.
    apply everywhere_bind; [apply everywhere_getitem|]. intros fq.
    apply everywhere_bind.
    { destruct (Py.truthy fq);
        [apply everywhere_ret | apply everywhere_getitem]. }
    intros target.
    apply everywhere_bind; [apply everywhere_getitem|]. intros name.
    apply everywhere_ret. }
  intros line. apply everywhere_bind; [|done].
  intros fs ev Hev. unfold write, events in Hev. simpl in Hev.
  by apply list_elem_of_singleton in Hev as ->.
Qed.

Lemma everywhere_with_open {A} env logfile (body : M A) :
  Q (EOpen logfile) -> Q (EClose logfile) ->
  everywhere Q body -> everywhere Q (with_open env logfile body).
Proof.
  intros Hopen Hclose Hbody. unfold with_open.
  apply everywhere_bind.
  { intros fs ev. unfold open_w, events.
    destruct (may_write env logfile); simpl.
    - by intros ->%list_elem_of_singleton.
    - by intros ?%elem_of_nil. }
  intros _. apply everywhere_try_finally; [done|].
  by apply everywhere_emit.
Qed.

End Everywhere.

(** X12: however an upload ends, every file that [invoke_dput] itself
    opens, writes or closes is its own marker, the path that
    [determine_logfile] returned. *)
Theorem upload_handles_only_its_marker
    (env : Env) (changes : Changes) (args : Args) (fs : FS)
    (ev : Event) (path : string) :
  let r := invoke_dput env changes args fs in
  ev ∈ events r ->
  file_of ev = Some path ->
  exists p0,
    load_profile env (host args) = inr p0 /\
    outcome (determine_logfile env changes p0 args fs) = inr path.
Proof.
  intros r. subst r. unfold invoke_dput.
  destruct (load_profile env (host args)) as [e|p0] eqn:Hload.
  { erewrite run_bind_inl by reflexivity. by intros ?%elem_of_nil. }
  erewrite run_bind_inr by reflexivity.
  pose proof (determine_logfile_frame env changes p0 args fs) as [_ Hev].
  unfold events, outcome in *.
  destruct (determine_logfile env changes p0 args fs)
    as [[[e|logfile] fs1] t1] eqn:Hd; simpl in Hev.
  { erewrite run_bind_inl by exact Hd. simpl.
    destruct Hev as [->|[l ->]].
    - by intros ?%elem_of_nil.
    - by intros ->%list_elem_of_singleton. }
  erewrite run_bind_inr by exact Hd. simpl.
  intros Hin Hfile. exists p0. split; [done|]. rewrite Hd. simpl. f_equal.
  apply elem_of_app in Hin as [Hin|Hin].
  { destruct Hev as [->|[l ->]].
    - by apply elem_of_nil in Hin.
    - by apply list_elem_of_singleton in Hin as ->. }
  symmetry. revert Hin path Hfile.
  set (Q := fun ev : Event =>
              forall path, file_of ev = Some path -> path = logfile).
  match goal with
  | |- ev ∈ (?m fs1).2 -> _ =>
      assert (Hrest : everywhere Q m); [|exact (Hrest fs1 ev)]
  end.
  assert (Q_other : forall ev, file_of ev = None -> Q ev).
  { intros ev' Hnone path' Hsome. congruence. }
  apply everywhere_bind; [apply everywhere_lift|]. intros p.
  apply everywhere_bind.
  { destruct (checkers p);
      [by apply everywhere_run_checkers | apply everywhere_ret]. }
  intros _. apply everywhere_bind.
  { destruct (settings p0 !! "fqdn") as [fq|]; [destruct (Py.truthy fq)|];
      try apply everywhere_ret; apply everywhere_getitem. }
  intros _. apply everywhere_bind; [apply everywhere_getitem|].
  intros _. apply everywhere_with_open.
  - intros path' [= ->]. done.
  - intros path' [= ->]. done.
  - apply everywhere_bind; [apply everywhere_getitem|]. intros method.
    apply everywhere_bind; [by apply everywhere_uploader_enter|].
    intros obj. apply everywhere_try_finally.
    + apply everywhere_transfer_loop; [done|].
      intros data path' [= ->]. done.
    + by apply everywhere_uploader_exit.
Qed.

Lemma upload_handles_only_its_marker_example :
  exists p0,
    load_profile (Sample.world Sample.plain false) "myhost" = inr p0 /\
    outcome (determine_logfile (Sample.world Sample.plain false)
               Sample.changes p0 Sample.args ∅)
    = inr Sample.marker.
Proof.
  apply (upload_handles_only_its_marker
           (Sample.world Sample.plain false) Sample.changes Sample.args ∅
           (EWrite Sample.marker
              (marker_line Sample.plain "pool/foo_1.0.dsc"))
           Sample.marker).
  - vm_compute. apply elem_of_cons. right. apply elem_of_cons. right.
    apply elem_of_cons. right. apply elem_of_cons. right.
    apply elem_of_cons. right. apply elem_of_cons. right.
    apply elem_of_cons. right. apply elem_of_cons. right.
    apply elem_of_cons. right. apply elem_of_cons. left. reflexivity.
  - reflexivity.
Defined.

(** ** An upload that returns *)

Lemma uploads_real_transfer_trace args p logfile paths :
  simulate args = false ->
  uploads (transfer_trace args p logfile paths) = paths.
Proof.
  intros Hsim. unfold transfer_trace. rewrite Hsim.
  induction paths as [|path rest IH]; [done|]. simpl. by f_equal.
Qed.

Lemma uploads_checker_events (cs : list string) :
  uploads (map EChecker cs) = [].
Proof. by apply omap_checker_events. Qed.

(** X13: an upload that returns has done, in this order and nothing else:
    the test for the marker, every configured checker in the listed order,
    the opening of the marker, the construction of the uploader,
    [initialize], the pre-hook with its command, for each path the
    transfer (unless this is a dry run) followed by the line in the
    marker, the post-hook with its command, [shutdown], and the closing of
    the marker. *)
Theorem successful_upload_trace
    (env : Env) (changes : Changes) (args : Args) (fs : FS) :
  let r := invoke_dput env changes args fs in
  outcome r = inr tt ->
  exists p0 p logfile method,
    load_profile env (host args) = inr p0 /\
    apply_overrides env args p0 = inr p /\
    outcome (determine_logfile env changes p0 args fs) = inr logfile /\
    settings p !! "method" = Some method /\
    events r
    = [EAccess logfile]
      ++ map EChecker (default [] (checkers p))
      ++ [EOpen logfile; EConstruct method; EInitialize; EPreHook]
      ++ hook_trace env p "pre_upload_command"
      ++ transfer_trace args p logfile (upload_paths changes)
      ++ [EPostHook]
      ++ hook_trace env p "post_upload_command"
      ++ [EShutdown; EClose logfile].
Proof.
  intros r. subst r. unfold outcome, events.
  destruct (invoke_dput env changes args fs) as [[o fs'] t] eqn:Hrun.
  simpl. intros ->.
  apply invoke_dput_inr_inv in Hrun
    as (p0 & p & logfile & method & Hload & Hlog & Hover & Hmeth & _ & _ & _
        & _ & ->).
  exists p0, p, logfile, method. by rewrite Hlog.
Qed.

Lemma successful_upload_trace_example :
  exists p0 p logfile method,
    load_profile (Sample.world Sample.hooked false) "myhost" = inr p0 /\
    apply_overrides (Sample.world Sample.hooked false) Sample.args p0
    = inr p /\
    outcome (determine_logfile (Sample.world Sample.hooked false)
               Sample.changes p0 Sample.args ∅)
    = inr logfile /\
    settings p !! "method" = Some method /\
    events (invoke_dput (Sample.world Sample.hooked false)
                        Sample.changes Sample.args ∅)
    = [EAccess logfile]
      ++ map EChecker (default [] (checkers p))
      ++ [EOpen logfile; EConstruct method; EInitialize; EPreHook]
      ++ hook_trace (Sample.world Sample.hooked false) p "pre_upload_command"
      ++ transfer_trace Sample.args p logfile (upload_paths Sample.changes)
      ++ [EPostHook]
      ++ hook_trace (Sample.world Sample.hooked false) p
           "post_upload_command"
      ++ [EShutdown; EClose logfile].
Proof.
  apply (successful_upload_trace
           (Sample.world Sample.hooked false) Sample.changes Sample.args ∅).
  vm_compute. reflexivity.
Defined.

(** X14: an upload that returns and is not a dry run has sent each file of
    the artifact set once, in the order of the list, and the descriptor
    last. *)
Theorem successful_upload_sends_files_then_descriptor
    (env : Env) (changes : Changes) (args : Args) (fs : FS) :
  simulate args = false ->
  let r := invoke_dput env changes args fs in
  outcome r = inr tt ->
  uploads (events r) = get_files changes ++ [get_changes_file changes].
Proof.
  intros Hsim r. subst r. unfold outcome, events.
  destruct (invoke_dput env changes args fs) as [[o fs'] t] eqn:Hrun.
  simpl. intros ->.
  apply invoke_dput_inr_inv in Hrun
    as (p0 & p & logfile & method & _ & _ & _ & _ & _ & _ & _ & _ & ->).
  rewrite !uploads_app, !uploads_hook_trace, uploads_checker_events,
    uploads_real_transfer_trace by done.
  simpl. by rewrite app_nil_r.
Qed.

Lemma successful_upload_sends_example :
  uploads (events (invoke_dput (Sample.world Sample.plain false)
                               Sample.changes Sample.args ∅))
  = ["pool/foo_1.0.dsc"; "pool/foo_1.0.tar.gz"; "foo_1.0_amd64.changes"].
Proof.
  apply (successful_upload_sends_files_then_descriptor
           (Sample.world Sample.plain false) Sample.changes Sample.args ∅).
  - reflexivity.
  - vm_compute. reflexivity.
Defined.

Lemma marker_line_text p path fq d :
  settings p !! "fqdn" = Some fq ->
  settings p !! "name" = Some d ->
  marker_line p path
  = line_text (Py.basename path) (if decide (fq = "") then d else fq) d.
Proof.
  intros Hfq Hd. unfold marker_line, line_text, Py.truthy.
  rewrite Hfq, Hd. simpl.
  destruct (decide (fq = "")) as [->|Hne]; [done|].
  apply String.eqb_neq in Hne. by rewrite Hne.
Qed.

(** X15: after an upload that returns, the marker holds exactly one line
    for each path, files first and descriptor last, of the form
    [Successfully uploaded FILE to TARGET for NAME.] where [FILE] is the
    base name of the path, [NAME] the [name] of the profile and [TARGET]
    its [fqdn], or its [name] when the [fqdn] is the empty string.
    Whatever the marker held before is gone. *)
Theorem successful_upload_rewrites_marker
    (env : Env) (changes : Changes) (args : Args) (fs : FS) :
  let r := invoke_dput env changes args fs in
  outcome r = inr tt ->
  exists p0 p logfile fq d,
    load_profile env (host args) = inr p0 /\
    apply_overrides env args p0 = inr p /\
    outcome (determine_logfile env changes p0 args fs) = inr logfile /\
    settings p !! "fqdn" = Some fq /\
    settings p !! "name" = Some d /\
    final_fs r !! logfile
    = Some (joined
              ((fun path =>
                  line_text (Py.basename path)
                            (if decide (fq = "") then d else fq) d)
                 <$> (get_files changes ++ [get_changes_file changes]))).
Proof.
  intros r. subst r. unfold outcome, final_fs.
  destruct (invoke_dput env changes args fs) as [[o fs'] t] eqn:Hrun.
  simpl. intros ->.
  apply invoke_dput_inr_inv in Hrun
    as (p0 & p & logfile & method & Hload & Hlog & Hover & _ & _
        & [fq Hfq] & [d Hd] & -> & _).
  exists p0, p, logfile, fq, d. rewrite Hlog.
  split_and!; try done.
  rewrite lookup_insert_eq. do 2 f_equal.
  apply list_fmap_ext. intros _ path _.
  by apply marker_line_text.
Qed.

Lemma successful_upload_rewrites_marker_example :
  let r := invoke_dput (Sample.world Sample.plain false) Sample.changes
             {| host := "myhost"; force := true; simulate := false;
                delayed := None; passive := false |}
             {[ Sample.marker := "an earlier record" ]} in
  exists p0 p logfile fq d,
    load_profile (Sample.world Sample.plain false) "myhost" = inr p0 /\
    apply_overrides (Sample.world Sample.plain false)
      {| host := "myhost"; force := true; simulate := false;
         delayed := None; passive := false |} p0 = inr p /\
    outcome (determine_logfile (Sample.world Sample.plain false)
               Sample.changes p0
               {| host := "myhost"; force := true; simulate := false;
                  delayed := None; passive := false |}
               {[ Sample.marker := "an earlier record" ]}) = inr logfile /\
    settings p !! "fqdn" = Some fq /\
    settings p !! "name" = Some d /\
    final_fs r !! logfile
    = Some (joined
              ((fun path =>
                  line_text (Py.basename path)
                            (if decide (fq = "") then d else fq) d)
                 <$> (get_files Sample.changes
                      ++ [get_changes_file Sample.changes]))).
Proof.
  apply (successful_upload_rewrites_marker
           (Sample.world Sample.plain false) Sample.changes
           {| host := "myhost"; force := true; simulate := false;
              delayed := None; passive := false |}
           {[ Sample.marker := "an earlier record" ]}).
  vm_compute. reflexivity.
Defined.

(** ** The dry run against the real run *)

Section DryRun.

Lemma without_uploads_app (t1 t2 : list Event) :
  without_uploads (t1 ++ t2) = without_uploads t1 ++ without_uploads t2.
Proof. apply omap_app. Qed.

Lemma without_uploads_none (t : list Event) :
  uploads t = [] -> without_uploads t = t.
Proof.
  induction t as [|ev t IH]; [done|].
  destruct ev; simpl; intros H; try (f_equal; by apply IH). done.
Qed.

Lemma agrees_refl {A} (m : M A) :
  sends_nothing m -> agrees_but_for_transfers m m.
Proof.
  intros Hm fs a fs' t Hrun. specialize (Hm fs).
  rewrite Hrun in Hm. unfold events in Hm. simpl in Hm.
  by rewrite without_uploads_none.
Qed.

Lemma agrees_bind {A B} (m m' : M A) (f f' : A -> M B) :
  agrees_but_for_transfers m m' ->
  (forall a, agrees_but_for_transfers (f a) (f' a)) ->
  agrees_but_for_transfers (m ≫= f) (m' ≫= f').
Proof.
  intros Hm Hf fs b fs' t Hrun.
  apply bind_inr_inv in Hrun as (a & fs1 & t1 & t2 & H1 & H2 & ->).
  apply Hm in H1. apply Hf in H2.
  rewrite run_bind, H1, H2. by rewrite without_uploads_app.
Qed.

Lemma agrees_try_finally {A} (body body' : M A) (fin fin' : M unit) :
  agrees_but_for_transfers body body' ->
  agrees_but_for_transfers fin fin' ->
  agrees_but_for_transfers (try_finally body fin) (try_finally body' fin').
Proof.
  intros Hb Hf fs a fs' t Hrun.
  apply try_finally_inr_inv in Hrun as (fs1 & t1 & t2 & H1 & H2 & ->).
  apply Hb in H1. apply Hf in H2.
  unfold try_finally. rewrite H1, H2. by rewrite without_uploads_app.
Qed.

Lemma agrees_transfer_loop args p logfile obj paths :
  agrees_but_for_transfers
    (transfer_loop args p logfile obj paths)
    (transfer_loop (dry args) p logfile obj paths).
Proof.
  induction paths as [|path rest IH]; intros fs a fs' t.
  - simpl. run. by intros [= <- <- <-].
  - rewrite !transfer_loop_cons.
    destruct (settings p !! "name"); [|done].
    change (simulate (dry args)) with true. cbv iota zeta.
    unfold outcome, final_fs, events.
    destruct (simulate args).
    + destruct (settings p !! "fqdn"); [|done].
      destruct (transfer_loop args p logfile obj rest _)
        as [[o f2] t2] eqn:Hrest.
      simpl. intros [= -> -> <-].
      by rewrite (IH _ _ _ _ Hrest).
    + destruct (on_upload_file (klass obj) path); [done|].
      destruct (settings p !! "fqdn"); [|done].
      destruct (transfer_loop args p logfile obj rest _)
        as [[o f2] t2] eqn:Hrest.
      simpl. intros [= -> -> <-].
      by rewrite (IH _ _ _ _ Hrest).
Qed.

Lemma agrees_invoke_dput env changes args :
  agrees_but_for_transfers
    (invoke_dput env changes args) (invoke_dput env changes (dry args)).
Proof.
  unfold invoke_dput.
  change (host (dry args)) with (host args).
  apply agrees_bind; [apply agrees_refl, sends_nothing_lift|]. intros p0.
  change (determine_logfile env changes p0 (dry args))
    with (determine_logfile env changes p0 args).
  apply agrees_bind;
    [apply agrees_refl, sends_nothing_determine_logfile|]. intros logfile.
  change (apply_overrides env (dry args) p0)
    with (apply_overrides env args p0).
  apply agrees_bind; [apply agrees_refl, sends_nothing_lift|]. intros p.
  apply agrees_bind.
  { apply agrees_refl. destruct (checkers p);
      [apply sends_nothing_run_checkers | apply sends_nothing_ret]. }
  intros _. apply agrees_bind.
  { apply agrees_refl.
    destruct (settings p0 !! "fqdn") as [fq|]; [destruct (Py.truthy fq)|];
      try apply sends_nothing_ret; apply sends_nothing_getitem. }
  intros _.
  apply agrees_bind; [apply agrees_refl, sends_nothing_getitem|]. intros _.
  apply agrees_bind.
  { apply agrees_refl. intros fs. unfold open_w.
    by destruct (may_write env logfile). }
  intros _.
  apply agrees_try_finally;
    [|apply agrees_refl; by apply sends_nothing_emit].
  apply agrees_bind; [apply agrees_refl, sends_nothing_getitem|].
  intros method.
  apply agrees_bind; [apply agrees_refl, sends_nothing_uploader_enter|].
  intros obj. apply agrees_try_finally.
  - apply agrees_transfer_loop.
  - apply agrees_refl, sends_nothing_uploader_exit.
Qed.

End DryRun.

(** X16: in one environment, that is with the same answers from the
    profile loader, the checkers, the commands of the hooks and the
    backend, when an upload returns, the dry run of the same command line
    makes the same calls in the same order but for the [upload_file]
    calls, of which it makes none. *)
Theorem dry_run_agrees_with_real_run
    (env : Env) (changes : Changes) (args : Args) (fs : FS) :
  let r := invoke_dput env changes args fs in
  outcome r = inr tt ->
  events (invoke_dput env changes (dry args) fs)
  = without_uploads (events r).
Proof.
  intros r. subst r. unfold outcome, events.
  destruct (invoke_dput env changes args fs) as [[o fs'] t] eqn:Hrun.
  simpl. intros ->.
  by rewrite (agrees_invoke_dput env changes args fs tt fs' t Hrun).
Qed.

Lemma dry_run_agrees_example :
  let r := invoke_dput (Sample.world Sample.hooked false)
                       Sample.changes Sample.args ∅ in
  events (invoke_dput (Sample.world Sample.hooked false) Sample.changes
                      (dry Sample.args) ∅)
  = without_uploads (events r).
Proof.
  apply (dry_run_agrees_with_real_run
           (Sample.world Sample.hooked false) Sample.changes Sample.args ∅).
  vm_compute. reflexivity.
Defined.

(** ** A transfer that fails *)

(** The loop over paths whose transfers all succeed goes on with the rest
    of the list. *)
Lemma transfer_loop_app args p logfile obj pre rest fs d fq :
  simulate args = false ->
  settings p !! "name" = Some d ->
  settings p !! "fqdn" = Some fq ->
  (forall x, x ∈ pre -> on_upload_file (klass obj) x = None) ->
  let fs1 := foldl (fun fs x => appended logfile (marker_line p x) fs)
                   fs pre in
  let r := transfer_loop args p logfile obj rest fs1 in
  transfer_loop args p logfile obj (pre ++ rest) fs
  = (outcome r, final_fs r, transfer_trace args p logfile pre ++ events r).
Proof.
  intros Hsim Hd Hfq. revert fs.
  induction pre as [|x pre IH]; intros fs Hpre; cbv zeta.
  - simpl. by destruct (transfer_loop args p logfile obj rest fs) as [[??]?].
  - change ((x :: pre) ++ rest) with (x :: (pre ++ rest)).
    rewrite transfer_loop_cons, Hd, Hsim, Hfq, (Hpre x) by left.
    cbv zeta. rewrite IH by (intros y Hy; apply Hpre; by right).
    unfold transfer_trace at 2. simpl. by rewrite Hsim.
Qed.

(** X17: when the transfer of one path fails in the middle of the loop,
    the marker has got a line for each path before it and none for the
    failing path or those after it; the paths after it are not sent, and
    the loop ends with the exception of the transfer. *)
Theorem failed_transfer_leaves_partial_marker
    (args : Args) (p : Profile) (logfile : string) (obj : Uploader)
    (pre : list string) (path : string) (post : list string) (e : Exc)
    (fs : FS) (d fq : string) :
  simulate args = false ->
  settings p !! "name" = Some d ->
  settings p !! "fqdn" = Some fq ->
  (forall x, x ∈ pre -> on_upload_file (klass obj) x = None) ->
  on_upload_file (klass obj) path = Some e ->
  transfer_loop args p logfile obj (pre ++ path :: post) fs
  = (inl e,
     foldl (fun fs x => appended logfile (marker_line p x) fs) fs pre,
     transfer_trace args p logfile pre ++ [EUploadFile path]).
Proof.
  intros Hsim Hd Hfq Hpre Hpath.
  rewrite (transfer_loop_app args p logfile obj pre (path :: post) fs d fq)
    by done.
  cbv zeta. by rewrite transfer_loop_cons, Hd, Hsim, Hpath.
Qed.

Lemma failed_transfer_example :
  transfer_loop Sample.args Sample.plain Sample.marker
    {| _config := Sample.plain; klass := Cases.picky |}
    (["pool/foo_1.0.dsc"; "pool/foo_1.0.tar.gz"]
     ++ "foo_1.0_amd64.changes" :: []) {[ Sample.marker := "" ]}
  = (inl (OtherError "permission denied"),
     foldl (fun fs x =>
              appended Sample.marker (marker_line Sample.plain x) fs)
           {[ Sample.marker := "" ]}
           ["pool/foo_1.0.dsc"; "pool/foo_1.0.tar.gz"],
     transfer_trace Sample.args Sample.plain Sample.marker
       ["pool/foo_1.0.dsc"; "pool/foo_1.0.tar.gz"]
     ++ [EUploadFile "foo_1.0_amd64.changes"]).
Proof.
  apply (failed_transfer_leaves_partial_marker
           Sample.args Sample.plain Sample.marker
           {| _config := Sample.plain; klass := Cases.picky |}
           ["pool/foo_1.0.dsc"; "pool/foo_1.0.tar.gz"]
           "foo_1.0_amd64.changes" [] (OtherError "permission denied")
           {[ Sample.marker := "" ]} "myhost" "ftp.example.org").
  - reflexivity.
  - reflexivity.
  - reflexivity.
  - intros x Hx. vm_compute in Hx.
    apply elem_of_cons in Hx as [->|Hx]; [reflexivity|].
    apply list_elem_of_singleton in Hx as ->. reflexivity.
  - reflexivity.
Defined.

(** ** A profile without [incoming] *)

(** X18: when the guard and every checker have passed and the profile has
    no [incoming] entry, the upload ends with [KeyError] for [incoming]:
    the checkers have run, but the marker is not opened, no uploader is
    constructed, and the file system is as it was. *)
Theorem upload_needs_incoming
    (env : Env) (changes : Changes) (args : Args) (fs : FS)
    (p0 p : Profile) (logfile d : string) :
  load_profile env (host args) = inr p0 ->
  outcome (determine_logfile env changes p0 args fs) = inr logfile ->
  apply_overrides env args p0 = inr p ->
  (forall c, c ∈ default [] (checkers p) ->
             run_checker env c changes p = None) ->
  settings p !! "name" = Some d ->
  settings p !! "incoming" = None ->
  invoke_dput env changes args fs
  = (inl (KeyError "incoming"), fs,
     EAccess logfile :: map EChecker (default [] (checkers p))).
Proof.
  intros Hload Hlog Hover Hpass Hd Hinc.
  unfold outcome in Hlog.
  destruct (determine_logfile env changes p0 args fs) as [[o fs1] t1] eqn:Hrun.
  simpl in Hlog. subst o.
  destruct (determine_logfile_inr_inv _ _ _ _ _ _ _ _ Hrun)
    as (d0 & _ & _ & _ & _ & -> & ->).
  unfold invoke_dput. rewrite Hload.
  erewrite run_bind_inr by reflexivity.
  erewrite run_bind_inr by exact Hrun.
  rewrite Hover. erewrite run_bind_inr by reflexivity.
  assert (Hcheck :
    match checkers p with
    | Some cs => run_checkers env cs changes p
    | None => mret tt
    end fs = (inr tt, fs, map EChecker (default [] (checkers p)))).
  { destruct (checkers p) as [cs|]; simpl in *; [|done].
    by apply run_checkers_pass. }
  erewrite run_bind_inr by exact Hcheck.
  assert (Htarget : exists target,
    match settings p0 !! "fqdn" with
    | Some fq => if Py.truthy fq then mret fq
                 else getitem (settings p) "name"
    | None => getitem (settings p) "name"
    end fs = (inr target, fs, [])).
  { unfold getitem. rewrite Hd.
    destruct (settings p0 !! "fqdn") as [fq|]; [destruct (Py.truthy fq)|];
      eauto. }
  destruct Htarget as [target Htarget].
  erewrite run_bind_inr by exact Htarget.
  erewrite run_bind_inl by (unfold getitem; rewrite Hinc; reflexivity).
  simpl. by rewrite app_nil_r.
Qed.

Lemma upload_needs_incoming_example :
  invoke_dput (Sample.world Cases.no_incoming false)
              Sample.changes Sample.args ∅
  = (inl (KeyError "incoming"), ∅,
     [EAccess Sample.marker; EChecker "lintian"]).
Proof.
  apply (upload_needs_incoming
           (Sample.world Cases.no_incoming false) Sample.changes
           Sample.args ∅ Cases.no_incoming Cases.no_incoming
           Sample.marker "myhost").
  - reflexivity.
  - vm_compute. reflexivity.
  - reflexivity.
  - intros c Hc. vm_compute in Hc.
    apply list_elem_of_singleton in Hc as ->. reflexivity.
  - reflexivity.
  - reflexivity.
Defined.

(** ** The prompt *)

(** X19: [prompt_ui] returns the answer of the query exactly when
    [initialize], the query and [shutdown] of the interface all return; it
    calls the query exactly when [initialize] returned, and [shutdown]
    exactly when the query returned as well: a query that raises leaves
    the interface without its [shutdown]. *)
Theorem prompt_ui_calls
    (interface : Interface) (args : list string) :
  let r := prompt_ui interface args in
  (forall answer,
     r.1 = inr answer <->
     ui_initialize interface = None /\
     ui_query interface args = inr answer /\
     ui_shutdown interface = None) /\
  (UiQuery args ∈ r.2 <-> ui_initialize interface = None) /\
  (UiShutdown ∈ r.2 <->
   ui_initialize interface = None /\
   exists answer, ui_query interface args = inr answer).
Proof.
  unfold prompt_ui.
  destruct (ui_initialize interface) as [e1|].
  { simpl. split_and!.
    - intros answer. split; [done | by intros (? & _)].
    - rewrite list_elem_of_singleton. split; done.
    - rewrite list_elem_of_singleton. split; [done | by intros (? & _)]. }
  destruct (ui_query interface args) as [e2|ret].
  { simpl. split_and!.
    - intros answer. split; [done | by intros (_ & ? & _)].
    - split; [done|]. intros _. apply elem_of_cons. right.
      by apply list_elem_of_singleton.
    - rewrite elem_of_cons, list_elem_of_singleton.
      split; [by intros [?|?] | by intros (_ & ? & ?)]. }
  assert (Hq : UiQuery args ∈ [UiInitialize; UiQuery args; UiShutdown])
    by (apply elem_of_cons; right; apply elem_of_cons; by left).
  assert (Hs : UiShutdown ∈ [UiInitialize; UiQuery args; UiShutdown])
    by (do 2 (apply elem_of_cons; right); by apply list_elem_of_singleton).
  destruct (ui_shutdown interface) as [e3|]; simpl; split_and!.
  - intros answer. split; [done | by intros (_ & _ & ?)].
  - done.
  - split; [|done]. intros _. split; [done | by exists ret].
  - intros answer. split; [by intros [= ->] | by intros (_ & [= ->] & _)].
  - done.
  - split; [|done]. intros _. split; [done | by exists ret].
Qed.

(** ** Invariants of every run *)

Section EveryRun.

Lemma inert_nil : inert [].
Proof. by repeat split. Qed.

Lemma inert_app (t1 t2 : list Event) :
  inert t1 -> inert t2 -> inert (t1 ++ t2).
Proof.
  intros (H1 & H2 & H3) (H4 & H5 & H6).
  unfold inert, backend_calls, opened, closed in *.
  by rewrite !omap_app, H1, H2, H3, H4, H5, H6.
Qed.

Lemma inert_run_ret {A} (a : A) : inert_run (mret a : M A).
Proof. intros fs. apply inert_nil. Qed.

Lemma inert_run_raise {A} (e : Exc) : inert_run (raise e : M A).
Proof. intros fs. apply inert_nil. Qed.

Lemma inert_run_bind {A B} (m : M A) (f : A -> M B) :
  inert_run m -> (forall a, inert_run (f a)) -> inert_run (m ≫= f).
Proof.
  intros Hm Hf fs. rewrite run_bind.
  specialize (Hm fs). unfold events in *.
  destruct (m fs) as [[[e|a] fs1] t1]; simpl in *; [done|].
  specialize (Hf a fs1). unfold events in Hf.
  destruct (f a fs1) as [[r fs2] t2]; simpl in *.
  by apply inert_app.
Qed.

Lemma inert_run_getitem d k : inert_run (getitem d k).
Proof.
  unfold getitem.
  destruct (d !! k); [apply inert_run_ret | apply inert_run_raise].
Qed.

Lemma inert_run_lift {A} (r : Exc + A) : inert_run (lift r).
Proof. destruct r; [apply inert_run_raise | apply inert_run_ret]. Qed.

Lemma inert_run_determine_logfile env changes conf args :
  inert_run (determine_logfile env changes conf args).
Proof.
  intros fs.
  destruct (determine_logfile_frame env changes conf args fs)
    as [_ [->|[l ->]]]; by repeat split.
Qed.

Lemma inert_run_checkers env cs changes p :
  inert_run (run_checkers env cs changes p).
Proof.
  induction cs as [|c cs IH]; simpl; [apply inert_run_ret|].
  apply inert_run_bind; [|done].
  intros fs. unfold call. destruct (run_checker env c changes p);
    by repeat split.
Qed.

(** A property of traces that inert events in front do not disturb holds
    of every run of [invoke_dput] once it holds of the part inside
    [with open]. *)
Lemma every_run (P : list Event -> Prop) env changes args fs :
  (forall t, inert t -> P t) ->
  (forall t0 t, inert t0 -> P t -> P (t0 ++ t)) ->
  (forall p logfile fs1,
     P (events
          (with_open env logfile
             (method ← getitem (settings p) "method";
              uploader env method p
                (fun obj => transfer_loop args p logfile obj
                              (upload_paths changes))) fs1))) ->
  P (events (invoke_dput env changes args fs)).
Proof.
  intros Hinert Hpre Hopen.
  assert (Hbind : forall {A B} (m : M A) (f : A -> M B) fs0,
            inert_run m ->
            (forall a fs1, P (events (f a fs1))) ->
            P (events ((m ≫= f) fs0))).
  { intros A B m f fs0 Hm Hf. rewrite run_bind.
    specialize (Hm fs0). unfold events in *.
    destruct (m fs0) as [[[e|a] fs1] t1]; simpl in *; [by apply Hinert|].
    specialize (Hf a fs1).
    destruct (f a fs1) as [[r fs2] t2]; simpl in *. by apply Hpre. }
  unfold invoke_dput.
  apply Hbind; [apply inert_run_lift|]. intros p0 fs1.
  apply Hbind; [apply inert_run_determine_logfile|]. intros logfile fs2.
  apply Hbind; [apply inert_run_lift|]. intros p fs3.
  apply Hbind.
  { destruct (checkers p);
      [apply inert_run_checkers | apply inert_run_ret]. }
  intros _ fs4. apply Hbind.
  { destruct (settings p0 !! "fqdn") as [fq|]; [destruct (Py.truthy fq)|];
      try apply inert_run_ret; apply inert_run_getitem. }
  intros _ fs5. apply Hbind; [apply inert_run_getitem|].
  intros _ fs6. apply Hopen.
Qed.

Lemma backend_calls_cons ev (t : list Event) :
  backend_calls (ev :: t)
  = option_list (backend_call ev) ++ backend_calls t.
Proof. unfold backend_calls. simpl. by destruct (backend_call ev). Qed.

(** The calls on the uploader object made by the context manager around
    the transfer loop, however it ends. *)
Lemma uploader_lifecycle env method p args logfile paths fs :
  lifecycle paths
    (backend_calls
       (events (uploader env method p
                  (fun obj => transfer_loop args p logfile obj paths) fs))).
Proof.
  unfold uploader. rewrite run_bind.
  pose proof (uploader_enter_frame env method p fs) as [_ Hev].
  unfold events in *.
  destruct (uploader_enter env method p fs) as [[[e|obj] fs1] t1] eqn:Henter;
    simpl in Hev.
  - simpl. destruct Hev as [->|[->|[->| ->]]].
    + by left.
    + by left.
    + right. by left.
    + right. right. left.
      by rewrite !backend_calls_cons, backend_calls_hook_trace.
  - destruct (uploader_enter_inr_inv env _ _ _ _ _ _ Henter)
      as (k & Hk & Hobj & Hinit & Hpre & -> & ->).
    pose proof (transfer_loop_calls args p logfile obj paths fs)
      as [Hcalls Hprefix].
    cbv zeta in Hcalls, Hprefix. unfold events in *.
    assert (Hsent : uploads (transfer_loop args p logfile obj paths fs).2
                    `prefix_of` paths).
    { destruct (simulate args); [|done].
      apply prefix_nil_inv in Hprefix as ->. apply prefix_nil. }
    unfold try_finally.
    destruct (transfer_loop args p logfile obj paths fs)
      as [[rl fsl] tl] eqn:Hloop.
    cbn [fst snd] in Hcalls, Hsent.
    right. right. right. exists (uploads tl). split; [done|].
    destruct (hook_fails env p "post_upload_command") eqn:Hpost.
    + destruct (uploader_exit_failed env obj fsl) as [msg Hexit];
        [by subst obj|].
      rewrite Hexit. left. cbn [fst snd].
      rewrite !backend_calls_app, !backend_calls_cons,
        !backend_calls_hook_trace, Hcalls.
      done.
    + rewrite uploader_exit_ok by (by subst obj).
      right.
      destruct (on_shutdown (klass obj)); cbn [fst snd];
        rewrite !backend_calls_app, !backend_calls_cons,
          !backend_calls_app, !backend_calls_hook_trace, Hcalls;
        done.
Qed.

End EveryRun.

(** The trace of a [with open] block, however its body ends. *)
Lemma with_open_events {A} env logfile (body : M A) fs :
  events (with_open env logfile body fs)
  = if may_write env logfile
    then EOpen logfile :: events (body (<[logfile := ""]> fs))
         ++ [EClose logfile]
    else [].
Proof.
  unfold with_open. rewrite run_bind. unfold open_w at 1.
  destruct (may_write env logfile); [|done]. cbn iota beta.
  unfold try_finally, close, emit, events.
  by destruct (body (<[logfile := ""]> fs)) as [[r fs1] t1].
Qed.

(** The trace of the body of the [with open] block of [invoke_dput]. *)
Lemma body_events env p args logfile paths fs :
  let body := method ← getitem (settings p) "method";
              uploader env method p
                (fun obj => transfer_loop args p logfile obj paths) in
  events (body fs) = [] \/
  exists method,
    events (body fs)
    = events (uploader env method p
                (fun obj => transfer_loop args p logfile obj paths) fs).
Proof.
  cbv zeta. rewrite run_bind. unfold getitem.
  destruct (settings p !! "method") as [method|]; [|by left].
  right. exists method. unfold ret, events. simpl.
  by destruct (uploader env method p _ fs) as [[r fs1] t1].
Qed.

(** X20: in every run of [invoke_dput], however it ends, the calls on the
    uploader object follow its life cycle: [initialize] comes first and
    once, [_pre_hook] next, every [upload_file] after both and for a
    prefix of the paths of the artifact set in their order, [_post_hook]
    after the transfers, and [shutdown] last and at most once.  No file is
    sent before [initialize] and the pre-hook, or after the post-hook. *)
Theorem backend_calls_follow_lifecycle
    (env : Env) (changes : Changes) (args : Args) (fs : FS) :
  lifecycle (upload_paths changes)
            (backend_calls (events (invoke_dput env changes args fs))).
Proof.
  apply (every_run
           (fun t => lifecycle (upload_paths changes) (backend_calls t))).
  - intros t (Ht & _). rewrite Ht. by left.
  - intros t0 t (Ht0 & _) Ht. by rewrite backend_calls_app, Ht0.
  - intros p logfile fs1. rewrite with_open_events.
    destruct (may_write env logfile); [|by left].
    rewrite backend_calls_cons, backend_calls_app. simpl.
    rewrite app_nil_r.
    destruct (body_events env p args logfile (upload_paths changes)
                (<[logfile := ""]> fs1)) as [-> | [method ->]].
    + by left.
    + apply uploader_lifecycle.
Qed.

Section Handles.

Lemma file_handles_app (t1 t2 : list Event) :
  file_handles (t1 ++ t2) = file_handles t1 ++ file_handles t2.
Proof. apply omap_app. Qed.

Lemma file_handles_none (t : list Event) :
  file_handles t = [] -> opened t = [] /\ closed t = [].
Proof.
  induction t as [|ev t IH]; [done|].
  destruct ev; simpl; intros H; try (by apply IH); done.
Qed.

Lemma file_handles_hook_trace env p hook :
  file_handles (hook_trace env p hook) = [].
Proof. unfold hook_trace. by destruct (hook_command p hook). Qed.

Lemma no_handles_ret {A} (a : A) : no_handles (mret a : M A).
Proof. by intros fs. Qed.

Lemma no_handles_raise {A} (e : Exc) : no_handles (raise e : M A).
Proof. by intros fs. Qed.

Lemma no_handles_bind {A B} (m : M A) (f : A -> M B) :
  no_handles m -> (forall a, no_handles (f a)) -> no_handles (m ≫= f).
Proof.
  intros Hm Hf fs. rewrite run_bind.
  specialize (Hm fs). unfold events in *.
  destruct (m fs) as [[[e|a] fs1] t1]; simpl in *; [done|].
  specialize (Hf a fs1). unfold events in Hf.
  destruct (f a fs1) as [[r fs2] t2]; simpl in *.
  by rewrite file_handles_app, Hm, Hf.
Qed.

Lemma no_handles_try_finally {A} (body : M A) (fin : M unit) :
  no_handles body -> no_handles fin -> no_handles (try_finally body fin).
Proof.
  intros Hb Hf fs. unfold try_finally.
  specialize (Hb fs). unfold events in *.
  destruct (body fs) as [[r fs1] t1]; simpl in *.
  specialize (Hf fs1). unfold events in Hf.
  destruct (fin fs1) as [[[e|[]] fs2] t2]; simpl in *;
    by rewrite file_handles_app, Hb, Hf.
Qed.

Lemma no_handles_call (ev : Event) (o : option Exc) :
  file_handles [ev] = [] -> no_handles (call ev o).
Proof.
  intros Hev. apply no_handles_bind; [by intros fs|].
  intros _. destruct o; [apply no_handles_raise | apply no_handles_ret].
Qed.

Lemma no_handles_getitem d k : no_handles (getitem d k).
Proof.
  unfold getitem.
  destruct (d !! k); [apply no_handles_ret | apply no_handles_raise].
Qed.

Lemma no_handles_run_hook env self hook :
  no_handles (_run_hook env self hook).
Proof.
  intros fs. destruct (hook_fails env (_config self) hook) eqn:Hf.
  - destruct (run_hook_failed env self hook fs Hf) as [msg ->].
    apply file_handles_hook_trace.
  - rewrite (run_hook_ok env self hook fs Hf).
    apply file_handles_hook_trace.
Qed.

Lemma no_handles_uploader_enter env method p :
  no_handles (uploader_enter env method p).
Proof.
  intros fs.
  destruct (uploader_enter_frame env method p fs)
    as [_ [->|[->|[->| ->]]]]; try done.
  by rewrite file_handles_app, file_handles_hook_trace.
Qed.

Lemma no_handles_uploader_exit env obj : no_handles (uploader_exit env obj).
Proof.
  apply no_handles_bind; [|intros _; by apply no_handles_call].
  apply no_handles_bind; [by intros fs|]. intros _.
  apply no_handles_run_hook.
Qed.

Lemma no_handles_transfer_loop args p logfile obj paths :
  no_handles (transfer_loop args p logfile obj paths).
Proof.
  induction paths as [|path rest IH]; simpl; [apply no_handles_ret|].
  apply no_handles_bind; [apply no_handles_getitem|]. intros _.
  apply no_handles_bind.
  { destruct (simulate args);
      [apply no_handles_ret | by apply no_handles_call]. }
  intros _. apply no_handles_bind.
  { unfold log_line.
    apply no_handles_bind; [apply no_handles_getitem|]. intros fq.
    apply no_handles_bind.
    { destruct (Py.truthy fq);
        [apply no_handles_ret | apply no_handles_getitem]. }
    intros target.
    apply no_handles_bind; [apply no_handles_getitem|]. intros name.
    apply no_handles_ret. }
  intros line. apply no_handles_bind; [by intros fs | done].
Qed.

End Handles.

(** X21: in every run of [invoke_dput], however it ends, at most one file
    is opened, and a file that is opened is closed by the last event of
    the run: the marker is not left open by an error of the backend, of a
    hook or of the loop. *)
Theorem marker_is_closed_at_the_end
    (env : Env) (changes : Changes) (args : Args) (fs : FS) :
  closed_at_end (events (invoke_dput env changes args fs)).
Proof.
  apply (every_run closed_at_end).
  - intros t (_ & Ho & Hc). split; [by rewrite Ho, Hc | by left].
  - intros t0 t (_ & Ho & Hc) [Heq Hlast].
    unfold closed_at_end, opened, closed in *.
    rewrite !omap_app, Ho, Hc. simpl. split; [done|].
    destruct Hlast as [Hnone | (l & t' & Hl & ->)]; [by left|].
    right. exists l, (t0 ++ t'). split; [done | by rewrite app_assoc].
  - intros p logfile fs1. rewrite with_open_events.
    destruct (may_write env logfile); [|by split; [|left]].
    set (body := method ← getitem (settings p) "method"; _).
    assert (Hbody : no_handles body).
    { apply no_handles_bind; [apply no_handles_getitem|]. intros method.
      apply no_handles_bind; [apply no_handles_uploader_enter|].
      intros obj. apply no_handles_try_finally;
        [apply no_handles_transfer_loop | apply no_handles_uploader_exit]. }
    destruct (file_handles_none _ (Hbody (<[logfile := ""]> fs1)))
      as [Ho Hc].
    unfold closed_at_end, opened, closed in *.
    change (EOpen logfile :: ?x) with ([EOpen logfile] ++ x).
    rewrite !omap_app, Ho, Hc. simpl. split; [done|].
    right.
    exists logfile,
      (EOpen logfile :: events (body (<[logfile := ""]> fs1))).
    by split.
Qed.
